(** * Get_SubDomain: a shallow embedding of [main.py]

    The program brute-forces sub-domains of a list of domains: it loads a
    list of candidate resolvers and a word list, validates the resolvers,
    and then, batch by batch, resolves [<label>.<domain>] against every
    validated resolver, appending the hits of each batch to
    [<output_directory>/<domain>.txt].

    Modelling conventions.
    - A Python [str] is a [string]; a character is a code point below 256
      (the Latin-1 range), so the Unicode-aware methods [str.isdigit],
      [str.strip] and [int] are modelled with their values on that range:
      there the decimal digits, the characters [int] converts, are [0] to
      [9].  Strings with other characters are outside the model.
    - [int] refuses a numeral of more than [int_max_str_digits] digits,
      the interpreter's default limit.
    - A text file is the [string] that Python's text layer hands to
      [readlines] (decoded, newlines already translated to LF).
    - The file system is a finite map from paths to contents: a file is
      identified by the string that is its path (two different strings
      are two different files), and opening a path for appending always
      succeeds and creates a missing file.
    - The network is an oracle that answers every query (resolver, name,
      record type, lifetime) with an answer or with a raised exception.
    - A [set] is iterated in the order of [elements], one of the orders
      in which Python may iterate it; nothing more is assumed of the order
      of the lines of one batch.
    - [logging.debug] calls and the progress bars write nothing the
      program reads back and are left out; [console.print] is recorded.
      In a debug run the log goes to the file [debug.log], which is not
      part of the file map: the map holds the other files. *)

From Stdlib Require Import ZArith Lia Ascii String List.
From stdpp Require Import base option list sets gmap strings.
From Equations Require Import Equations.

Open Scope Z_scope.

(** ** Python exceptions and results *)

(** The exception classes that can reach this program.  [NXDOMAIN],
    [NoNameservers], [NoAnswer] and [Timeout] are subclasses of
    [dns.exception.DNSException]; [OtherDNSException] stands for every
    other subclass; [ValueError] and [OtherError] are outside it. *)
Inductive exc : Type :=
  | NXDOMAIN
  | NoNameservers
  | NoAnswer
  | Timeout
  | OtherDNSException
  | ValueError
  | OtherError.

(** The classes named in the [except] clauses of the program. *)
Inductive exc_class : Type :=
  | C_NXDOMAIN
  | C_NoNameservers
  | C_Timeout
  | C_DNSException.

(** [isinstance e c] *)
Definition isinstance (e : exc) (c : exc_class) : bool :=
  match c, e with
  | C_NXDOMAIN, NXDOMAIN => true
  | C_NoNameservers, NoNameservers => true
  | C_Timeout, Timeout => true
  | C_DNSException, (NXDOMAIN | NoNameservers | NoAnswer | Timeout
                    | OtherDNSException) => true
  | _, _ => false
  end.

(** [except (c1, c2, ...)] catches [e] *)
Definition catches (cs : list exc_class) (e : exc) : bool :=
  existsb (isinstance e) cs.

(** The result of evaluating a Python expression: a value or a raised
    exception. *)
Inductive res (A : Type) : Type :=
  | Ok (a : A)
  | Raise (e : exc).
Arguments Ok {A} a.
Arguments Raise {A} e.

Definition res_bind {A B : Type} (r : res A) (k : A -> res B) : res B :=
  match r with
  | Ok a => k a
  | Raise e => Raise e
  end.

Notation "'let?' x ':=' r 'in' k" := (res_bind r (fun x => k))
  (at level 10, x name, r at level 100, k at level 200).

(** [try: body  except cs: handler] *)
Definition try_except {A : Type} (body : res A) (cs : list exc_class)
    (handler : res A) : res A :=
  match body with
  | Ok a => Ok a
  | Raise e => if catches cs e then handler else Raise e
  end.

(** ** Strings *)

Definition code (c : ascii) : N := N_of_ascii c.

(** [c.isspace()] on the Latin-1 range: TAB, LF, VT, FF, CR, FS, GS, RS,
    US, SPACE, NEL and NBSP. *)
Definition isspace (c : ascii) : bool :=
  let n := code c in
  ((9 <=? n) && (n <=? 13) || (28 <=? n) && (n <=? 32)
   || (n =? 133) || (n =? 160))%N.

(** [c.isdecimal()] on the Latin-1 range: the digits [0] to [9], the
    characters that [int] converts. *)
Definition isdecimal_char (c : ascii) : bool :=
  let n := code c in ((48 <=? n) && (n <=? 57))%N.

(** [c.isdigit()] on the Latin-1 range: the decimal digits and the
    superscript digits U+00B2, U+00B3 and U+00B9. *)
Definition isdigit_char (c : ascii) : bool :=
  let n := code c in
  (isdecimal_char c || (n =? 178) || (n =? 179) || (n =? 185))%N.

Fixpoint string_forallb (p : ascii -> bool) (s : string) : bool :=
  match s with
  | EmptyString => true
  | String c s' => p c && string_forallb p s'
  end.

(** [bool(s)] for a string *)
Definition truthy (s : string) : bool :=
  match s with
  | EmptyString => false
  | String _ _ => true
  end.

(** [s.isdigit()]: at least one character, all of them digits *)
Definition isdigit (s : string) : bool :=
  truthy s && string_forallb isdigit_char s.

(** [s.lstrip()] *)
Fixpoint lstrip (s : string) : string :=
  match s with
  | EmptyString => EmptyString
  | String c s' => if isspace c then lstrip s' else s
  end.

(** [s.rstrip()] *)
Fixpoint rstrip (s : string) : string :=
  match s with
  | EmptyString => EmptyString
  | String c s' =>
      match rstrip s' with
      | EmptyString => if isspace c then EmptyString else String c EmptyString
      | r => String c r
      end
  end.

(** [s.strip()] *)
Definition strip (s : string) : string := rstrip (lstrip s).

(** [s.split(sep)] for a one-character separator; never empty. *)
Fixpoint split (sep : ascii) (s : string) : list string :=
  match s with
  | EmptyString => [EmptyString]
  | String c s' =>
      if Ascii.eqb c sep then EmptyString :: split sep s'
      else match split sep s' with
           | [] => [String c EmptyString]
           | p :: ps => String c p :: ps
           end
  end.

(** The digits of [int(s)], from the left: a character that is not a
    decimal digit makes the conversion fail. *)
Fixpoint int_digits (acc : Z) (s : string) : res Z :=
  match s with
  | EmptyString => Ok acc
  | String c s' =>
      if isdecimal_char c
      then int_digits (10 * acc + Z.of_N (code c - 48)) s'
      else Raise ValueError
  end.

(** [sys.get_int_max_str_digits()]: the default limit of the interpreter
    on the number of digits of a numeral that [int] converts. *)
Definition int_max_str_digits : nat := 4300.

(** [int(s)] for the strings the program passes, those with
    [s.isdigit()]: the decimal value when every character is a decimal
    digit and there are at most [int_max_str_digits] of them (leading
    zeros count), [ValueError] for a superscript digit or a longer
    numeral. *)
Definition int (s : string) : res Z :=
  match s with
  | EmptyString => Raise ValueError
  | _ =>
      if (int_max_str_digits <? String.length s)%nat then Raise ValueError
      else int_digits 0 s
  end.

Definition LF : ascii := "010"%char.
Definition dot : ascii := "."%char.
Definition slash : ascii := "/"%char.

(** ['\n'] *)
Definition nl : string := String LF EmptyString.

(** [f.readlines()]: the lines of a text, each with its terminating
    line feed; the last line has none when the text does not end in one. *)
Fixpoint readlines (text : string) : list string :=
  match text with
  | EmptyString => []
  | String c text' =>
      if Ascii.eqb c LF then String c EmptyString :: readlines text'
      else match readlines text' with
           | [] => [String c EmptyString]
           | l :: ls => String c l :: ls
           end
  end.

(** ** Loading the resolver list and the word list *)

(** [all(part.isdigit() and 0 <= int(part) <= 255 for part in parts)]:
    the generator is consumed in order and [all] stops at the first
    false element. *)
Fixpoint all_octets (parts : list string) : res bool :=
  match parts with
  | [] => Ok true
  | part :: rest =>
      if isdigit part then
        let? n := int part in
        if (0 <=? n) && (n <=? 255) then all_octets rest else Ok false
      else Ok false
  end.

Definition is_valid_ip (ip : string) : res bool :=
  let parts := split dot ip in
  if Nat.eqb (length parts) 4 then all_octets parts else Ok false.

(** The list comprehension of [load_nameservers], line by line. *)
Fixpoint load_nameservers_lines (lines : list string) : res (list string) :=
  match lines with
  | [] => Ok []
  | line :: rest =>
      if truthy (strip line) then
        let? valid := is_valid_ip (strip line) in
        let? tl := load_nameservers_lines rest in
        Ok (if valid then strip line :: tl else tl)
      else load_nameservers_lines rest
  end.

Definition load_nameservers (ns_file : string) : res (list string) :=
  load_nameservers_lines (readlines ns_file).

Definition load_subdomains (sub_file : string) : list string :=
  map strip (readlines sub_file).

Definition comma : ascii := ","%char.

(** The module-level list of domains, from the value of the [domains]
    setting: [[domain.strip() for domain in value.split(',')]] *)
Definition parse_domains (value : string) : list string :=
  map strip (split comma value).

(** ** Module-level settings *)

(** The module-level variables the functions below read. *)
Record settings : Type := {
  domains : list string;
  nameservers : list string;
  subdomains : list string;
  timeout : Z;
  output_directory : string;
  batch_size : nat;
  threads : Z
}.

(** ** The network *)

Inductive rdtype : Type := A | MX | CNAME.

(** What [resolver.resolve] does: it returns an answer (the record
    data) or raises. *)
Inductive reply : Type :=
  | Answer (rrset : list string)
  | Fails (e : exc).

(** The network as seen through [dns.resolver.Resolver] with
    [nameservers = [ns]]: resolver, query name, record type, lifetime. *)
Definition network : Type := string -> string -> rdtype -> Z -> reply.

Definition resolve (net : network) (ns qname : string) (rd : rdtype)
    (lifetime : Z) : res (list string) :=
  match net ns qname rd lifetime with
  | Answer rrset => Ok rrset
  | Fails e => Raise e
  end.

(** ** The resolver validator and the resolution worker *)

Definition validate_nameserver (net : network) (cfg : settings)
    (nameserver : string) : res (option string) :=
  try_except
    (let? _ := resolve net nameserver "google.com" A (timeout cfg) in
     Ok (Some nameserver))
    [C_DNSException; C_Timeout]
    (Ok None).

(** The classes of the three [except] clauses of [check_subdomain]. *)
Definition dns_failures : list exc_class :=
  [C_NXDOMAIN; C_NoNameservers; C_DNSException].

Definition full_subdomain_of (subdomain domain : string) : string :=
  subdomain +:+ "." +:+ domain.

Definition check_subdomain (net : network) (cfg : settings)
    (nameserver domain subdomain : string) : res (option string) :=
  let full_subdomain := full_subdomain_of subdomain domain in
  try_except
    (let? _ := resolve net nameserver full_subdomain A (timeout cfg) in
     let? _ := try_except
                 (let? _ := resolve net nameserver full_subdomain MX
                              (timeout cfg) in Ok tt)
                 dns_failures (Ok tt) in
     let? _ := try_except
                 (let? _ := resolve net nameserver full_subdomain CNAME
                              (timeout cfg) in Ok tt)
                 dns_failures (Ok tt) in
     Ok (Some full_subdomain))
    dns_failures
    (Ok None).

(** The worker of the specification's simplification: the existence
    check alone, with the MX and CNAME probes left out. *)
Definition check_subdomain_no_probes (net : network) (cfg : settings)
    (nameserver domain subdomain : string) : res (option string) :=
  let full_subdomain := full_subdomain_of subdomain domain in
  try_except
    (let? _ := resolve net nameserver full_subdomain A (timeout cfg) in
     Ok (Some full_subdomain))
    dns_failures
    (Ok None).

(** ** The world: files, console, call trace *)

Inductive message : Type :=
  | Msg_validating
  | Msg_no_valid_nameservers
  | Msg_domain_start (domain : string).

(** Ghost record of the calls made, used to state which functions ran. *)
Inductive call : Type :=
  | Call_process_domain (domain : string)
  | Call_process_batch (domain : string) (batch : list string)
      (output_file : string).

Record world : Type := {
  files : gmap string string;
  console : list message;
  trace : list call
}.

(** Computations that change the world and may raise; the world reached
    when an exception is raised is kept. *)
Definition M (T : Type) : Type := world -> res T * world.

Definition ret {T : Type} (x : T) : M T := fun w => (Ok x, w).

Definition bind {T U : Type} (m : M T) (k : T -> M U) : M U :=
  fun w =>
    match m w with
    | (Ok x, w') => k x w'
    | (Raise e, w') => (Raise e, w')
    end.

Notation "'let!' x ':=' m 'in' k" := (bind m (fun x => k))
  (at level 10, x name, m at level 100, k at level 200).
Notation "m ';;' k" := (bind m (fun _ => k))
  (at level 100, k at level 200, right associativity).

Definition lift {T : Type} (r : res T) : M T := fun w => (r, w).

(** [for x in xs: body x] *)
Fixpoint for_each {T : Type} (xs : list T) (body : T -> M unit) : M unit :=
  match xs with
  | [] => ret tt
  | x :: xs' => body x ;; for_each xs' body
  end.

Definition print (m : message) : M unit :=
  fun w => (Ok tt, {| files := files w; console := console w ++ [m];
                      trace := trace w |}).

Definition record_call (c : call) : M unit :=
  fun w => (Ok tt, {| files := files w; console := console w;
                      trace := trace w ++ [c] |}).

(** [open(path, 'a')]: the file is created, empty, when it is missing. *)
Definition open_append (path : string) : M unit :=
  fun w =>
    (Ok tt, {| files := match files w !! path with
                        | Some _ => files w
                        | None => <[path := ""]> (files w)
                        end;
               console := console w; trace := trace w |}).

(** [f.write(data)] on a file opened for appending *)
Definition write (path data : string) : M unit :=
  fun w => (Ok tt, {| files := alter (fun old => old +:+ data) path (files w);
                      console := console w; trace := trace w |}).

Definition startswith (c : ascii) (s : string) : bool :=
  match s with
  | String c' _ => Ascii.eqb c' c
  | EmptyString => false
  end.

Fixpoint endswith (c : ascii) (s : string) : bool :=
  match s with
  | EmptyString => false
  | String c' EmptyString => Ascii.eqb c' c
  | String _ s' => endswith c s'
  end.

(** [os.path.join(a, b)] (POSIX) *)
Definition path_join (a b : string) : string :=
  if startswith slash b then b
  else if negb (truthy a) || endswith slash a then a +:+ b
  else a +:+ "/" +:+ b.

(** ** The batch coordinator *)

(** [asyncio.Semaphore(value)] raises for a negative value. *)
Definition Semaphore (value : Z) : res unit :=
  if value <? 0 then Raise ValueError else Ok tt.

(** [ThreadPoolExecutor(max_workers)] raises unless [max_workers > 0]. *)
Definition ThreadPoolExecutor (max_workers : Z) : res unit :=
  if max_workers <=? 0 then Raise ValueError else Ok tt.

(** One task: the worker's result, when truthy, is added to the set. *)
Definition task_wrapper (net : network) (cfg : settings) (domain : string)
    (task : string * string) (unique_subdomains : gset string)
    : res (gset string) :=
  let? result := check_subdomain net cfg task.1 domain task.2 in
  Ok (match result with
      | Some r => if truthy r then {[ r ]} ∪ unique_subdomains
                  else unique_subdomains
      | None => unique_subdomains
      end).

(** The two nested loops that build [tasks]. *)
Definition build_tasks (valid_nameservers subdomains_batch : list string)
    : list (string * string) :=
  flat_map (fun nameserver =>
              map (fun subdomain => (nameserver, subdomain)) subdomains_batch)
           valid_nameservers.

(** [await asyncio.gather( *tasks )]: every task runs against the shared
    set; an exception escaping a task escapes the gather.  The tasks are
    taken in the order they were created; the set obtained does not depend
    on that order (see [gather_Permutation]). *)
Fixpoint gather (net : network) (cfg : settings) (domain : string)
    (tasks : list (string * string)) (unique_subdomains : gset string)
    : res (gset string) :=
  match tasks with
  | [] => Ok unique_subdomains
  | t :: ts =>
      let? u := task_wrapper net cfg domain t unique_subdomains in
      gather net cfg domain ts u
  end.

Definition process_batch (net : network) (cfg : settings) (domain : string)
    (valid_nameservers subdomains_batch : list string) (output_file : string)
    : M unit :=
  record_call (Call_process_batch domain subdomains_batch output_file) ;;
  lift (Semaphore (threads cfg)) ;;
  lift (ThreadPoolExecutor (threads cfg)) ;;
  let! unique_subdomains :=
    lift (gather net cfg domain
            (build_tasks valid_nameservers subdomains_batch) ∅) in
  open_append output_file ;;
  for_each (elements unique_subdomains)
    (fun subdomain => write output_file (subdomain +:+ nl)).

(** ** The domain pipeline *)

(** The indices [i, i + step, ...] below [stop], for [step = S k]. *)
Equations? range_up (i stop k : nat) : list nat by wf (stop - i)%nat lt :=
  range_up i stop k with decide (i < stop)%nat := {
    | left _ => i :: range_up (i + S k) stop k
    | right _ => []
  }.
Proof. lia. Qed.

(** [range(start, stop, step)] for a step that is not negative *)
Definition range (start stop step : nat) : res (list nat) :=
  match step with
  | O => Raise ValueError
  | S k => Ok (range_up start stop k)
  end.

(** [xs[i:j]] for indices that are not negative *)
Definition slice {T : Type} (xs : list T) (i j : nat) : list T :=
  take (j - i)%nat (drop i xs).

(** [[subdomains[i:i + batch_size]
      for i in range(0, len(subdomains), batch_size)]] *)
Definition subdomain_batches (subdomains : list string) (batch_size : nat)
    : res (list (list string)) :=
  let? starts := range 0 (length subdomains) batch_size in
  Ok (map (fun i => slice subdomains i (i + batch_size)%nat) starts).

Definition output_file_of (cfg : settings) (domain : string) : string :=
  path_join (output_directory cfg) (domain +:+ ".txt").

(** The [for] loop of [process_domain] over the batches. *)
Definition run_batches (net : network) (cfg : settings) (domain : string)
    (valid_nameservers : list string) (output_file : string)
    (subdomain_batches : list (list string)) : M unit :=
  for_each subdomain_batches
    (fun subdomains_batch =>
       process_batch net cfg domain valid_nameservers subdomains_batch
         output_file).

Definition process_domain (net : network) (cfg : settings) (domain : string)
    (valid_nameservers : list string) : M unit :=
  record_call (Call_process_domain domain) ;;
  let output_file := output_file_of cfg domain in
  let! batches := lift (subdomain_batches (subdomains cfg) (batch_size cfg)) in
  run_batches net cfg domain valid_nameservers output_file batches.

(** ** The engine *)

(** The loop over [as_completed(futures)]: the results are taken in the
    order the futures complete; [future.result()] re-raises what the
    validator raised. *)
Fixpoint collect_valid (net : network) (cfg : settings)
    (completed : list string) (valid_nameservers : list string)
    : res (list string) :=
  match completed with
  | [] => Ok valid_nameservers
  | nameserver :: rest =>
      let? result := validate_nameserver net cfg nameserver in
      collect_valid net cfg rest
        (match result with
         | Some r => if truthy r then valid_nameservers ++ [r]
                     else valid_nameservers
         | None => valid_nameservers
         end)
  end.

(** The validation phase of [main]; [completion] is the order in which
    the submitted futures complete. *)
Definition validation_phase (net : network) (cfg : settings)
    (completion : list string -> list string) : res (list string) :=
  let? _ := ThreadPoolExecutor (threads cfg) in
  collect_valid net cfg (completion (nameservers cfg)) [].

Definition main (net : network) (cfg : settings)
    (completion : list string -> list string) : M unit :=
  print Msg_validating ;;
  let! valid_nameservers := lift (validation_phase net cfg completion) in
  match valid_nameservers with
  | [] => print Msg_no_valid_nameservers
  | _ =>
      for_each (domains cfg)
        (fun domain =>
           print (Msg_domain_start domain) ;;
           process_domain net cfg domain valid_nameservers)
  end.

Definition empty_world : world :=
  {| files := ∅; console := []; trace := [] |}.

(** ** Vocabulary of the statements *)

(** The text [process_batch] appends for the hostnames [hosts]: each one
    followed by a line feed. *)
Definition render (hosts : list string) : string :=
  fold_right (fun h acc => h +:+ String LF acc) "" hosts.

(** The content of a file, empty for a file that does not exist. *)
Definition content_of (fs : gmap string string) (path : string) : string :=
  default "" (fs !! path).

(** The expression returns a value. *)
Definition returns {T : Type} (r : res T) : Prop :=
  match r with
  | Ok _ => True
  | Raise _ => False
  end.

(** The exception is one the worker's [except] clauses catch. *)
Definition recognized (e : exc) : Prop := catches dns_failures e = true.

(** The query is answered. *)
Definition answered (net : network) (cfg : settings) (ns qname : string)
    (rd : rdtype) : Prop :=
  exists rrset, net ns qname rd (timeout cfg) = Answer rrset.

(** The query is answered or fails with a recognized exception. *)
Definition benign (net : network) (cfg : settings) (ns qname : string)
    (rd : rdtype) : Prop :=
  forall e, net ns qname rd (timeout cfg) = Fails e -> recognized e.

(** A network on which the A query is answered and the MX probe raises
    an exception outside [DNSException]. *)
Definition net_mx_crash : network := fun _ _ rd _ =>
  match rd with
  | A => Answer ["93.184.216.34"]
  | MX => Fails OtherError
  | CNAME => Fails NoAnswer
  end.

(** A network that knows [www.example.com] (A record only) and
    [mail.example.com], whatever the resolver. *)
Definition net_example : network := fun _ qname rd _ =>
  if String.eqb qname "google.com" then Answer ["142.250.0.1"]
  else if String.eqb qname "www.example.com" then
    match rd with
    | A => Answer ["93.184.216.34"]
    | MX => Fails NoAnswer
    | CNAME => Fails Timeout
    end
  else if String.eqb qname "mail.example.com" then Answer ["93.184.216.35"]
  else Fails NXDOMAIN.

(** The network [net_example] with one name on which the A query raises
    an exception outside [DNSException]. *)
Definition net_crash : network := fun ns qname rd lifetime =>
  if String.eqb qname "crash.example.com" then Fails OtherError
  else net_example ns qname rd lifetime.

(** A network on which every query times out. *)
Definition net_down : network := fun _ _ _ _ => Fails Timeout.

Definition cfg_example : settings :=
  {| domains := ["example.com"];
     nameservers := ["8.8.8.8"; "1.1.1.1"];
     subdomains := ["www"; "mail"; "bogus-xyz-123"; "www"];
     timeout := 2;
     output_directory := "out";
     batch_size := 3;
     threads := 4 |}.

(** Some task of the batch returned the hostname [h]. *)
Definition confirmed (net : network) (cfg : settings) (domain : string)
    (valid_nameservers subdomains_batch : list string) (h : string) : Prop :=
  exists nameserver subdomain,
    nameserver ∈ valid_nameservers /\ subdomain ∈ subdomains_batch
    /\ check_subdomain net cfg nameserver domain subdomain = Ok (Some h).

(** No task of the batch lets an exception escape. *)
Definition tasks_return (net : network) (cfg : settings) (domain : string)
    (valid_nameservers subdomains_batch : list string) : Prop :=
  forall nameserver subdomain,
    nameserver ∈ valid_nameservers -> subdomain ∈ subdomains_batch ->
    returns (check_subdomain net cfg nameserver domain subdomain).

(** The set a batch hands to the writing loop (empty when the gather
    raises and nothing is written). *)
Definition batch_hits (net : network) (cfg : settings) (domain : string)
    (valid_nameservers subdomains_batch : list string) : gset string :=
  match gather net cfg domain
          (build_tasks valid_nameservers subdomains_batch) ∅ with
  | Ok unique_subdomains => unique_subdomains
  | Raise _ => ∅
  end.

(** The hostnames written for a sequence of batches, in writing order. *)
Definition domain_written (net : network) (cfg : settings) (domain : string)
    (valid_nameservers : list string) (batches : list (list string))
    : list string :=
  flat_map (fun b => elements (batch_hits net cfg domain valid_nameservers b))
           batches.

(** The calls to [process_batch] that a sequence of batches records. *)
Definition batch_calls (domain output_file : string)
    (batches : list (list string)) : list call :=
  map (fun b => Call_process_batch domain b output_file) batches.

(** The files after the batches of one domain ran without raising: the
    output file is untouched when there was no batch. *)
Definition after_batches (output_file : string) (batches : list (list string))
    (written : list string) (fs : gmap string string) : gmap string string :=
  match batches with
  | [] => fs
  | _ => <[output_file := content_of fs output_file +:+ render written]> fs
  end.

(** The world in which [process_domain] starts its loop. *)
Definition entered (domain : string) (w : world) : world :=
  {| files := files w; console := console w;
     trace := trace w ++ [Call_process_domain domain] |}.

(** A world whose output file holds a line of an earlier run. *)
Definition world_old : world :=
  {| files := {[ "out/example.com.txt" := "old.example.com" +:+ nl ]};
     console := []; trace := [] |}.

(** Settings with batches of one candidate. *)
Definition cfg_crash : settings :=
  {| domains := ["example.com"];
     nameservers := ["8.8.8.8"];
     subdomains := ["www"; "crash"; "mail"];
     timeout := 2;
     output_directory := "out";
     batch_size := 1;
     threads := 4 |}.

(** [ceil(n / b)] *)
Definition ceil_div (n b : nat) : nat := ((n + b - 1) / b)%nat.

(** The line without its terminating line feed, when it has one. *)
Fixpoint chomp (line : string) : string :=
  match line with
  | EmptyString => EmptyString
  | String c EmptyString => if Ascii.eqb c LF then EmptyString else line
  | String c rest => String c (chomp rest)
  end.

(** [sep.join(parts)] for a one-character separator *)
Fixpoint join (sep : ascii) (parts : list string) : string :=
  match parts with
  | [] => EmptyString
  | [p] => p
  | p :: ps => p +:+ String sep (join sep ps)
  end.

Definition all_space (s : string) : Prop := string_forallb isspace s = true.

(** The separator does not occur in [s]. *)
Definition sep_free (sep : ascii) (s : string) : Prop :=
  string_forallb (fun c => negb (Ascii.eqb c sep)) s = true.

Definition starts_with_space (s : string) : bool :=
  match s with
  | String c _ => isspace c
  | EmptyString => false
  end.

Fixpoint ends_with_space (s : string) : bool :=
  match s with
  | EmptyString => false
  | String c EmptyString => isspace c
  | String _ s' => ends_with_space s'
  end.

Definition digit_value (c : ascii) : Z := Z.of_N (code c - 48).

(** [decimal s n]: [s] is a decimal numeral (a non-empty run of decimal
    digits, leading zeros allowed) and [n] is the number it denotes. *)
Inductive decimal : string -> Z -> Prop :=
  | decimal_digit c :
      isdecimal_char c = true ->
      decimal (String c EmptyString) (digit_value c)
  | decimal_snoc s n c :
      decimal s n ->
      isdecimal_char c = true ->
      decimal (s +:+ String c EmptyString) (10 * n + digit_value c).

(** A part that parses as an integer in [0, 255]: a decimal numeral, of
    at most [int_max_str_digits] digits, that denotes such a number. *)
Definition octet (part : string) : Prop :=
  (String.length part <= int_max_str_digits)%nat
  /\ exists n, decimal part n /\ 0 <= n <= 255.

(** Exactly four dot-separated parts, each an octet. *)
Definition dotted_quad (ip : string) : Prop :=
  exists p1 p2 p3 p4,
    ip = p1 +:+ "." +:+ p2 +:+ "." +:+ p3 +:+ "." +:+ p4
    /\ octet p1 /\ octet p2 /\ octet p3 /\ octet p4.


(** The resolver answers the probe of [validate_nameserver]. *)
Definition probe_ok (net : network) (cfg : settings) (ns : string) : bool :=
  match net ns "google.com" A (timeout cfg) with
  | Answer _ => true
  | Fails _ => false
  end.

(** A string with no white space at either end. *)
Definition trimmed (s : string) : Prop :=
  starts_with_space s = false /\ ends_with_space s = false.

(** [piece] is [name] with white space around it. *)
Definition padded (piece name : string) : Prop :=
  exists pre post,
    piece = pre +:+ name +:+ post /\ all_space pre /\ all_space post.

(** [h] is [<candidate>.<domain>] for a configured domain and a candidate
    of the word list. *)
Definition candidate_host (cfg : settings) (h : string) : Prop :=
  exists domain subdomain,
    domain ∈ domains cfg /\ subdomain ∈ subdomains cfg
    /\ h = full_subdomain_of subdomain domain.

(** From [fs] to [fs'] files were only appended to: a file outside
    [outs] is untouched, no file disappears, and what a file gained is
    lines that satisfy [P]. *)
Definition appended (P : string -> Prop) (outs : list string)
    (fs fs' : gmap string string) : Prop :=
  (forall path, path ∉ outs -> fs' !! path = fs !! path)
  /\ (forall path,
        exists hosts,
          Forall P hosts
          /\ content_of fs' path = content_of fs path +:+ render hosts
          /\ (is_Some (fs !! path) -> is_Some (fs' !! path))).




(** Settings that list the same domain twice. *)
Definition cfg_twice : settings :=
  {| domains := ["example.com"; "example.org"; "example.com"];
     nameservers := ["8.8.8.8"];
     subdomains := ["www"; "mail"];
     timeout := 2;
     output_directory := "out";
     batch_size := 100;
     threads := 4 |}.

(** A character occurs in a string. *)
Definition occurs (c : ascii) (s : string) : Prop :=
  In c (list_ascii_of_string s).

(** A digit that is not a decimal digit: [c.isdigit()] holds and [int]
    does not convert [c] (on the Latin-1 range, the superscript digits). *)
Definition non_decimal_digit (c : ascii) : Prop :=
  isdigit_char c = true /\ isdecimal_char c = false.

(** A part that passes [isdigit] and that [int] refuses: it holds a digit
    that is not a decimal digit, or it has more than [int_max_str_digits]
    characters. *)
Definition unparsable (part : string) : Prop :=
  isdigit part = true
  /\ ((exists c, occurs c part /\ non_decimal_digit c)
      \/ (int_max_str_digits < String.length part)%nat).

(** The validator stumbles on [ip]: there are four dot-separated parts
    and, after parts that are octets, comes an unparsable part. *)
Definition stumbles (ip : string) : Prop :=
  length (split dot ip) = 4%nat
  /\ exists pre part post,
       split dot ip = pre ++ part :: post
       /\ Forall octet pre /\ unparsable part.

(** [c * n]: the character [c] repeated [n] times. *)
Fixpoint str_mul (c : ascii) (n : nat) : string :=
  match n with
  | O => EmptyString
  | S n' => String c (str_mul c n')
  end.

(** Settings with an empty word list. *)
Definition cfg_no_candidates : settings :=
  {| domains := ["example.com"];
     nameservers := ["8.8.8.8"];
     subdomains := [];
     timeout := 2;
     output_directory := "out";
     batch_size := 100;
     threads := 4 |}.

(** * Properties *)

(** Case analysis on membership in a list given by its elements. *)
Ltac elem_cases H :=
  repeat (apply elem_of_cons in H as [->|H]);
  try (by apply elem_of_nil in H).

(** ** Batch partitioning *)

Section Batches.
Local Open Scope nat_scope.

Lemma range_up_step (i stop k : nat) :
  range_up i stop k =
    if decide (i < stop) then i :: range_up (i + S k) stop k else [].
Proof.
  rewrite range_up_equation_1.
  destruct (decide (i < stop)) as [Hlt|Hge]; [|reflexivity].
  apply range_up_clause_1_equation_1.
Qed.

Lemma ceil_div_0 (b : nat) : 0 < b → ceil_div 0 b = 0.
Proof. intros Hb. unfold ceil_div. apply Nat.div_small. lia. Qed.

Lemma ceil_div_step (n b : nat) :
  0 < b → 0 < n → ceil_div n b = S (ceil_div (n - b) b).
Proof.
  intros Hb Hn. unfold ceil_div.
  destruct (decide (b ≤ n)) as [Hle|Hgt].
  - replace (n + b - 1) with ((n - b + b - 1) + 1 * b) by lia.
    rewrite Nat.div_add by lia. lia.
  - replace (n - b) with 0 by lia. simpl.
    rewrite (Nat.div_small (b - 1) b) by lia.
    pose proof (Nat.div_mod_eq (n + b - 1) b) as Hdm.
    pose proof (Nat.mod_upper_bound (n + b - 1) b ltac:(lia)) as Hmod.
    nia.
Qed.

(** [ceil_div] is the ceiling of the quotient. *)
Lemma ceil_div_spec (n b : nat) :
  0 < b → n ≤ ceil_div n b * b ∧ ceil_div n b * b < n + b.
Proof.
  intros Hb. unfold ceil_div.
  pose proof (Nat.div_mod_eq (n + b - 1) b) as Hdm.
  pose proof (Nat.mod_upper_bound (n + b - 1) b ltac:(lia)) as Hm.
  nia.
Qed.

Context {T : Type}.
Implicit Types (xs : list T).

(** The batches cut from index [i] on. *)
Lemma batches_from xs (k : nat) : ∀ (m i : nat),
  length xs - i ≤ m →
  let bs := map (fun j => slice xs j (j + S k))
                (range_up i (length xs) k) in
  concat bs = drop i xs
  ∧ length bs = ceil_div (length xs - i) (S k)
  ∧ ∀ q b, bs !! q = Some b →
      length b = Nat.min (S k) (length xs - i - q * S k).
Proof.
  induction m as [|m IH]; intros i Hm; cbn zeta;
    rewrite range_up_step; destruct (decide (i < length xs)) as [Hlt|Hge];
    try lia.
  - replace (length xs - i) with 0 by lia.
    rewrite ceil_div_0 by lia. rewrite drop_ge by lia.
    repeat split; try reflexivity. intros q b Hq. discriminate.
  - destruct (IH (i + S k) ltac:(lia)) as (Hcat & Hlen & Hsz).
    cbn [map concat length]. rewrite Hcat, Hlen.
    repeat split.
    + unfold slice. replace (i + S k - i) with (S k) by lia.
      rewrite <- (take_drop (S k) (drop i xs)) at 2.
      f_equal. rewrite drop_drop. reflexivity.
    + rewrite (ceil_div_step (length xs - i)) by lia.
      do 2 f_equal. lia.
    + intros [|q] b Hq; cbn in Hq.
      * injection Hq as <-. unfold slice.
        rewrite length_take, length_drop. lia.
      * rewrite (Hsz q b Hq). f_equal. lia.
  - replace (length xs - i) with 0 by lia.
    rewrite ceil_div_0 by lia. rewrite drop_ge by lia.
    repeat split; try reflexivity. intros q b Hq. discriminate.
Qed.

(** The size of the last batch. *)
Lemma last_batch_size (n b c : nat) :
  0 < b → 0 < n → n ≤ c * b → c * b < n + b →
  Nat.min b (n - (c - 1) * b) = if decide (n mod b = 0) then b else n mod b.
Proof.
  intros Hb Hn Hlo Hhi.
  assert (Hc : 0 < c) by nia.
  destruct (decide (n = c * b)) as [->|Hne].
  - rewrite Nat.Div0.mod_mul. rewrite decide_True by reflexivity. nia.
  - assert (Hr : n - (c - 1) * b < b) by nia.
    assert (Hmod : n - (c - 1) * b = n mod b).
    { apply (Nat.mod_unique n b (c - 1)); [exact Hr | nia]. }
    rewrite <- Hmod. rewrite decide_False by nia. lia.
Qed.

End Batches.

(** For a positive batch size the comprehension returns batches that
    concatenate to the candidate list. *)
Lemma subdomain_batches_concat (candidates : list string) (B : nat) :
  (0 < B)%nat →
  ∃ batches,
    subdomain_batches candidates B = Ok batches
    ∧ concat batches = candidates.
Proof.
  intros HB. destruct B as [|k]; [lia|].
  destruct (batches_from candidates k (length candidates) 0 ltac:(lia))
    as (Hcat & _).
  eexists. split; [reflexivity|]. exact Hcat.
Qed.

(** C6 - Batch partitioning.  For a batch size [B > 0] the comprehension of
    [process_domain] cuts the [N] candidates into [ceil(N/B)] batches whose
    concatenation is the candidate list; every batch but the last has [B]
    candidates and the last one has [N mod B], or [B] when [B] divides [N]. *)
Theorem C6_batch_partition (candidates : list string) (B : nat) :
  (0 < B)%nat →
  ∃ batches,
    subdomain_batches candidates B = Ok batches
    ∧ length batches = ceil_div (length candidates) B
    ∧ concat batches = candidates
    ∧ (∀ q b, batches !! q = Some b → (S q < length batches)%nat →
         length b = B)
    ∧ (∀ b, last batches = Some b →
         length b = if decide (length candidates mod B = 0)%nat then B
                    else (length candidates mod B)%nat).
Proof.
  intros HB. destruct B as [|k]; [lia|].
  destruct (batches_from candidates k (length candidates) 0 ltac:(lia))
    as (Hcat & Hlen & Hsz).
  rewrite Nat.sub_0_r in Hlen.
  pose proof (ceil_div_spec (length candidates) (S k) ltac:(lia)) as [Hlo Hhi].
  eexists. split; [reflexivity|]. cbn [res_bind].
  split; [exact Hlen|]. split; [exact Hcat|]. split.
  - intros q b Hq Hnotlast. rewrite (Hsz q b Hq).
    rewrite Hlen in Hnotlast. nia.
  - intros b Hlast. rewrite last_lookup in Hlast.
    assert (Hpos : (0 < length candidates)%nat).
    { destruct candidates; [|simpl; lia].
      rewrite range_up_step in Hlast. discriminate. }
    rewrite (Hsz _ b Hlast), Hlen, Nat.sub_0_r.
    replace (Nat.pred (ceil_div (length candidates) (S k)))
      with (ceil_div (length candidates) (S k) - 1)%nat by lia.
    apply last_batch_size; lia.
Qed.

Lemma C6_batch_partition_witness :
  (0 < 2)%nat ∧
  ∃ batches,
    subdomain_batches ["a"; "b"; "c"; "d"; "e"] 2 = Ok batches
    ∧ length batches = ceil_div 5 2
    ∧ concat batches = ["a"; "b"; "c"; "d"; "e"]
    ∧ (∀ q b, batches !! q = Some b → (S q < length batches)%nat →
         length b = 2%nat)
    ∧ (∀ b, last batches = Some b →
         length b = if decide (5 mod 2 = 0)%nat then 2%nat else (5 mod 2)%nat).
Proof.
  split; [lia|].
  apply (C6_batch_partition ["a"; "b"; "c"; "d"; "e"] 2). lia.
Defined.

(** ** Strings *)

Section Strings.

Lemma sapp_nil_l (t : string) : "" +:+ t = t.
Proof. reflexivity. Qed.

Lemma sapp_cons (c : ascii) (s t : string) :
  String c s +:+ t = String c (s +:+ t).
Proof. reflexivity. Qed.

Lemma sapp_nil_r (s : string) : s +:+ "" = s.
Proof. induction s as [|c s IH]; [reflexivity|]. rewrite sapp_cons. by f_equal. Qed.

Lemma sapp_assoc (s t u : string) : (s +:+ t) +:+ u = s +:+ (t +:+ u).
Proof.
  induction s as [|c s IH]; [reflexivity|].
  rewrite !sapp_cons. by f_equal.
Qed.

Lemma string_forallb_app (p : ascii → bool) (s t : string) :
  string_forallb p (s +:+ t) = string_forallb p s && string_forallb p t.
Proof.
  induction s as [|c s IH]; [reflexivity|].
  rewrite sapp_cons. simpl. rewrite IH. by rewrite andb_assoc.
Qed.

(** *** [strip] *)

Lemma lstrip_spec (s : string) :
  ∃ pre, s = pre +:+ lstrip s ∧ all_space pre
         ∧ starts_with_space (lstrip s) = false.
Proof.
  induction s as [|c s (pre & Heq & Hpre & Hstart)].
  - by exists "".
  - simpl. destruct (isspace c) eqn:Hc.
    + exists (String c pre). rewrite sapp_cons, <- Heq.
      repeat split; [|done]. unfold all_space. simpl. by rewrite Hc.
    + exists "". by repeat split.
Qed.

Lemma rstrip_spec (s : string) :
  ∃ post, s = rstrip s +:+ post ∧ all_space post
          ∧ ends_with_space (rstrip s) = false
          ∧ (starts_with_space s = false →
             starts_with_space (rstrip s) = false).
Proof.
  induction s as [|c s (post & Heq & Hpost & Hend & _)].
  - by exists "".
  - simpl. destruct (rstrip s) as [|d r] eqn:Hr.
    + destruct (isspace c) eqn:Hc.
      * exists (String c post). rewrite sapp_nil_l in *. subst s.
        repeat split; try done. unfold all_space. simpl. by rewrite Hc.
      * exists post. rewrite sapp_nil_l in Heq. subst s.
        repeat split; try done.
    + exists post. rewrite sapp_cons, <- Heq. repeat split; try done.
Qed.

(** [strip] removes a run of white space at each end and leaves a
    string that neither starts nor ends with white space. *)
Lemma strip_spec (s : string) :
  ∃ pre post,
    s = pre +:+ strip s +:+ post
    ∧ all_space pre ∧ all_space post
    ∧ starts_with_space (strip s) = false
    ∧ ends_with_space (strip s) = false.
Proof.
  destruct (lstrip_spec s) as (pre & Hs & Hpre & Hstart).
  destruct (rstrip_spec (lstrip s)) as (post & Hl & Hpost & Hend & Hkeep).
  exists pre, post. unfold strip. rewrite <- Hl. repeat split; auto.
Qed.

Lemma lstrip_all_space (pre s : string) :
  all_space pre → lstrip (pre +:+ s) = lstrip s.
Proof.
  unfold all_space. induction pre as [|c pre IH]; [done|].
  rewrite sapp_cons. simpl.
  intros [Hc Hpre]%andb_true_iff. rewrite Hc. auto.
Qed.

Lemma rstrip_all_space (post : string) : all_space post → rstrip post = "".
Proof.
  unfold all_space. induction post as [|c post IH]; [done|]. simpl.
  intros [Hc Hpost]%andb_true_iff. rewrite IH by done. by rewrite Hc.
Qed.

Lemma rstrip_app_space (s post : string) :
  all_space post → ends_with_space s = false → rstrip (s +:+ post) = s.
Proof.
  intros Hpost. induction s as [|c s IH]; intros Hend.
  - by apply rstrip_all_space.
  - rewrite sapp_cons. simpl. destruct s as [|d s].
    + rewrite sapp_nil_l, rstrip_all_space by done.
      simpl in Hend. by rewrite Hend.
    + rewrite IH by done. done.
Qed.

(** [strip] is determined by the decomposition of {!strip_spec}. *)
Lemma strip_unique (s pre mid post : string) :
  s = pre +:+ mid +:+ post →
  all_space pre → all_space post →
  starts_with_space mid = false → ends_with_space mid = false →
  strip s = mid.
Proof.
  intros -> Hpre Hpost Hstart Hend. unfold strip.
  rewrite lstrip_all_space by done.
  destruct mid as [|c mid].
  - rewrite sapp_nil_l.
    destruct (lstrip_spec post) as (pre' & Heq & _ & _).
    assert (Hl : all_space (lstrip post)).
    { unfold all_space in *. rewrite Heq, string_forallb_app in Hpost.
      by apply andb_true_iff in Hpost as [_ ?]. }
    by apply rstrip_all_space.
  - rewrite sapp_cons. simpl in *. rewrite Hstart.
    rewrite <- sapp_cons. by apply rstrip_app_space.
Qed.

Lemma chomp_spec (line : string) :
  ∃ post, line = chomp line +:+ post ∧ all_space post.
Proof.
  induction line as [|c line (post & Heq & Hpost)]; [by exists ""|].
  simpl. destruct line as [|d line].
  - destruct (Ascii.eqb_spec c LF) as [->|Hne].
    + by exists (String LF "").
    + by exists "".
  - exists post. rewrite sapp_cons, <- Heq. done.
Qed.

(** On a line that carries no white space around its text, [strip]
    removes the line feed and nothing else. *)
Lemma strip_clean_line (line : string) :
  starts_with_space (chomp line) = false →
  ends_with_space (chomp line) = false →
  strip line = chomp line.
Proof.
  intros Hstart Hend. destruct (chomp_spec line) as (post & Heq & Hpost).
  apply (strip_unique line "" (chomp line) post); done.
Qed.

End Strings.

(** ** Resolver addresses *)

Section Split.
Variable sep : ascii.

Lemma split_nonempty (s : string) : split sep s ≠ [].
Proof.
  destruct s as [|c s]; [done|]. simpl.
  destruct (Ascii.eqb c sep); [done|]. by destruct (split sep s).
Qed.

Lemma join_cons_char (c : ascii) (p : string) (ps : list string) :
  join sep (String c p :: ps) = String c (join sep (p :: ps)).
Proof. by destruct ps. Qed.

Lemma join_split (s : string) : join sep (split sep s) = s.
Proof.
  induction s as [|c s IH]; [done|]. simpl.
  destruct (Ascii.eqb_spec c sep) as [->|Hne].
  - pose proof (split_nonempty s) as Hne.
    destruct (split sep s) as [|p ps]; [done|].
    change (join sep ("" :: p :: ps)) with (String sep (join sep (p :: ps))).
    by rewrite IH.
  - pose proof (split_nonempty s) as Hne'.
    destruct (split sep s) as [|p ps]; [done|].
    by rewrite join_cons_char, IH.
Qed.

Lemma split_sep_free (s : string) : Forall (sep_free sep) (split sep s).
Proof.
  induction s as [|c s IH]; [by repeat constructor|]. simpl.
  destruct (Ascii.eqb c sep) eqn:Hc.
  - by constructor.
  - destruct (split sep s) as [|p ps].
    + repeat constructor. unfold sep_free. simpl. by rewrite Hc.
    + apply Forall_cons in IH as [Hp Hps]. constructor; [|done].
      unfold sep_free in *. simpl. by rewrite Hc, Hp.
Qed.

Lemma split_app_sep (p t : string) :
  sep_free sep p → split sep (p +:+ String sep t) = p :: split sep t.
Proof.
  unfold sep_free. induction p as [|c p IH]; intros Hp.
  - rewrite sapp_nil_l. simpl. by rewrite Ascii.eqb_refl.
  - rewrite sapp_cons. simpl in *.
    apply andb_true_iff in Hp as [Hc Hp].
    apply negb_true_iff in Hc. rewrite Hc, IH by done. done.
Qed.

Lemma split_sep_free_id (p : string) : sep_free sep p → split sep p = [p].
Proof.
  unfold sep_free. induction p as [|c p IH]; intros Hp; [done|].
  simpl in *. apply andb_true_iff in Hp as [Hc Hp].
  apply negb_true_iff in Hc. rewrite Hc, IH by done. done.
Qed.

Lemma split_join (ps : list string) :
  ps ≠ [] → Forall (sep_free sep) ps → split sep (join sep ps) = ps.
Proof.
  induction ps as [|p ps IH]; [done|]. intros _ [Hp Hps]%Forall_cons.
  destruct ps as [|q ps].
  - by apply split_sep_free_id.
  - change (join sep (p :: q :: ps))
      with (p +:+ String sep (join sep (q :: ps))).
    rewrite split_app_sep by done. by rewrite IH.
Qed.

End Split.

Section Decimal.

Lemma string_forallb_impl (p q : ascii → bool) (s : string) :
  (∀ c, p c = true → q c = true) →
  string_forallb p s = true → string_forallb q s = true.
Proof.
  intros Hpq. induction s as [|c s IH]; [done|]. simpl.
  intros [Hc Hs]%andb_true_iff. rewrite (Hpq c Hc). auto.
Qed.

Lemma digit_value_range (c : ascii) :
  isdecimal_char c = true → 0 ≤ digit_value c ≤ 9.
Proof.
  unfold isdecimal_char, digit_value. cbn zeta.
  intros [H1 H2]%andb_true_iff.
  apply N.leb_le in H1, H2. lia.
Qed.

Lemma decimal_digits (s : string) (n : Z) :
  decimal s n →
  string_forallb isdecimal_char s = true ∧ truthy s = true ∧ 0 ≤ n.
Proof.
  induction 1 as [c Hc|s n c Hs (IH1 & IH2 & IH3) Hc].
  - pose proof (digit_value_range c Hc). simpl. rewrite Hc. repeat split; lia.
  - pose proof (digit_value_range c Hc).
    rewrite string_forallb_app, IH1. simpl. rewrite Hc.
    repeat split; [|lia]. by destruct s.
Qed.

Lemma int_digits_app (s t : string) : ∀ acc,
  int_digits acc (s +:+ t) = let? a := int_digits acc s in int_digits a t.
Proof.
  induction s as [|c s IH]; intros acc; [done|].
  rewrite sapp_cons. simpl. destruct (isdecimal_char c); [apply IH|done].
Qed.

Lemma int_nonempty (s : string) :
  truthy s = true →
  int s = if (int_max_str_digits <? String.length s)%nat
          then Raise ValueError else int_digits 0 s.
Proof. by destruct s. Qed.

Lemma decimal_int_digits (s : string) (n : Z) :
  decimal s n → int_digits 0 s = Ok n.
Proof.
  induction 1 as [c Hc|s n c Hs IH Hc].
  - simpl. rewrite Hc. reflexivity.
  - rewrite int_digits_app, IH. simpl. by rewrite Hc.
Qed.

Lemma int_digits_decimal (s : string) : ∀ p acc n,
  decimal p acc → int_digits acc s = Ok n → decimal (p +:+ s) n.
Proof.
  induction s as [|c s IH]; intros p acc n Hp; simpl.
  - intros [= <-]. by rewrite sapp_nil_r.
  - destruct (isdecimal_char c) eqn:Hc; [|done]. intros Hn.
    change (String c s) with (String c "" +:+ s).
    rewrite <- sapp_assoc. eapply IH; [|exact Hn].
    by constructor.
Qed.

Lemma int_digits_0_decimal (s : string) (n : Z) :
  truthy s = true → int_digits 0 s = Ok n → decimal s n.
Proof.
  destruct s as [|c s]; [done|]. intros _. simpl.
  destruct (isdecimal_char c) eqn:Hc; [|done]. intros Hn.
  change (String c s) with (String c "" +:+ s).
  eapply int_digits_decimal; [|exact Hn].
  replace (0 + Z.of_N (code c - 48)) with (digit_value c) by done.
  by constructor.
Qed.

(** [int] converts exactly the decimal numerals within the limit. *)
Lemma int_ok (s : string) (n : Z) :
  int s = Ok n
  ↔ decimal s n ∧ (String.length s ≤ int_max_str_digits)%nat.
Proof.
  destruct (truthy s) eqn:Hne.
  - rewrite int_nonempty by done.
    destruct (Nat.ltb_spec int_max_str_digits (String.length s)) as [Hl|Hl].
    + split; [done|]. intros [_ ?]. lia.
    + split.
      * intros Hn. split; [by apply int_digits_0_decimal|done].
      * intros [Hn _]. by apply decimal_int_digits.
  - destruct s; [|done]. split; [done|].
    intros [Hn _]. by destruct (decimal_digits "" n Hn) as (_ & ? & _).
Qed.

Lemma isdecimal_isdigit (c : ascii) :
  isdecimal_char c = true → isdigit_char c = true.
Proof. unfold isdigit_char. cbn zeta. by intros ->. Qed.

Lemma isdecimal_not_dot (c : ascii) :
  isdecimal_char c = true → negb (Ascii.eqb c dot) = true.
Proof.
  intros Hc. destruct (Ascii.eqb_spec c dot) as [->|]; [|done].
  vm_compute in Hc. discriminate.
Qed.

Lemma octet_dot_free (p : string) : octet p → sep_free dot p.
Proof.
  intros (_ & n & Hn & _). destruct (decimal_digits p n Hn) as (Hd & _).
  eapply string_forallb_impl; [|exact Hd]. apply isdecimal_not_dot.
Qed.

Lemma all_octets_true (parts : list string) :
  all_octets parts = Ok true ↔ Forall octet parts.
Proof.
  induction parts as [|part rest IH]; [by split; [constructor|]|].
  simpl. split.
  - destruct (isdigit part); [|done].
    destruct (int part) as [n|e] eqn:Hint; [|done]. simpl.
    destruct ((0 <=? n) && (n <=? 255)) eqn:Hrange; [|done].
    intros Hrest. constructor; [|by apply IH].
    apply int_ok in Hint as [Hn Hlen]. split; [done|].
    exists n. split; [done|].
    apply andb_true_iff in Hrange as [H1 H2]. lia.
  - intros [(Hlen & n & Hn & Hrange) Hrest]%Forall_cons.
    destruct (decimal_digits part n Hn) as (Hd & Hne & _).
    unfold isdigit. rewrite Hne.
    rewrite (string_forallb_impl _ _ _ isdecimal_isdigit Hd). simpl.
    rewrite (proj2 (int_ok part n) (conj Hn Hlen)). simpl.
    replace ((0 <=? n) && (n <=? 255)) with true
      by (symmetry; apply andb_true_iff; split; lia).
    by apply IH.
Qed.

(** The validator returns [True] exactly on the dotted quads. *)
Lemma is_valid_ip_true (ip : string) :
  is_valid_ip ip = Ok true ↔ dotted_quad ip.
Proof.
  unfold is_valid_ip, dotted_quad. cbn zeta. split.
  - destruct (Nat.eqb_spec (length (split dot ip)) 4) as [Hlen|]; [|done].
    pose proof (join_split dot ip) as Hjoin.
    destruct (split dot ip) as [|p1 [|p2 [|p3 [|p4 [|]]]]]; try done.
    intros Hall%all_octets_true.
    apply Forall_cons in Hall as [H1 Hall].
    apply Forall_cons in Hall as [H2 Hall].
    apply Forall_cons in Hall as [H3 Hall].
    apply Forall_cons in Hall as [H4 _].
    exists p1, p2, p3, p4. by rewrite <- Hjoin.
  - intros (p1 & p2 & p3 & p4 & -> & H1 & H2 & H3 & H4).
    change (p1 +:+ "." +:+ p2 +:+ "." +:+ p3 +:+ "." +:+ p4)
      with (join dot [p1; p2; p3; p4]).
    rewrite split_join; [|done|by repeat constructor; apply octet_dot_free].
    change (length [p1; p2; p3; p4] =? 4)%nat with true. cbv iota.
    apply all_octets_true.
    repeat (apply Forall_cons_2; [done|]). apply Forall_nil_2.
Qed.

End Decimal.

Section LoadNameservers.


(** The first line on which the validator raises makes the load raise. *)
Lemma load_nameservers_lines_raise (lines : list string) (e : exc) :
  load_nameservers_lines lines = Raise e →
  ∃ line, line ∈ lines ∧ is_valid_ip (strip line) = Raise e.
Proof.
  induction lines as [|line rest IH]; [done|]. simpl.
  destruct (truthy (strip line)).
  - destruct (is_valid_ip (strip line)) as [valid|e'] eqn:Hv; simpl.
    + destruct (load_nameservers_lines rest) as [tl|e'']; [done|]. simpl.
      intros [= ->]. destruct IH as (l & Hl & Hr); [done|].
      exists l. split; [by right|done].
    + intros [= ->]. exists line. split; [by left|done].
  - intros Hr. destruct (IH Hr) as (l & Hl & Hr'). exists l.
    split; [by right|done].
Qed.

End LoadNameservers.

(** The four addresses the specification lists as rejected. *)
Example is_valid_ip_three_parts : is_valid_ip "1.2.3" = Ok false.
Proof. reflexivity. Qed.

Example is_valid_ip_five_parts : is_valid_ip "1.2.3.4.5" = Ok false.
Proof. reflexivity. Qed.

Example is_valid_ip_out_of_range : is_valid_ip "1.2.3.256" = Ok false.
Proof. reflexivity. Qed.

Example is_valid_ip_letters : is_valid_ip "a.b.c.d" = Ok false.
Proof. reflexivity. Qed.

(** A superscript digit passes [isdigit] and makes [int] raise: the
    validator raises, and so does the load of a file with such a line. *)
Example is_valid_ip_superscript :
  is_valid_ip ("1.2.3." +:+ String "178"%char "") = Raise ValueError.
Proof. reflexivity. Qed.

Example load_nameservers_superscript :
  load_nameservers ("8.8.8.8" +:+ nl +:+ "1.2.3." +:+ String "178"%char nl)
  = Raise ValueError.
Proof. reflexivity. Qed.

(** A numeral of more than [int_max_str_digits] digits makes [int]
    raise, whatever its value; one of exactly that many digits is
    converted. *)
Example is_valid_ip_overlong :
  is_valid_ip (str_mul "0" 4301 +:+ ".0.0.0") = Raise ValueError
  ∧ is_valid_ip (str_mul "0" 4300 +:+ ".0.0.0") = Ok true.
Proof. split; vm_compute; reflexivity. Qed.




(** ** The word list *)

(** C8 - Candidate labels, as amended.  The word list yields one candidate
    per line, in order, none dropped; the candidate is the line with the
    white space at both ends removed (line feed, spaces, tabs and the
    like), so it is the line without its line feed exactly when the text of
    the line neither starts nor ends with white space. *)
Theorem C8_candidates_are_stripped_lines (text : string) :
  length (load_subdomains text) = length (readlines text)
  ∧ (∀ i line, readlines text !! i = Some line →
       ∃ candidate pre post,
         load_subdomains text !! i = Some candidate
         ∧ line = pre +:+ candidate +:+ post
         ∧ all_space pre ∧ all_space post
         ∧ starts_with_space candidate = false
         ∧ ends_with_space candidate = false)
  ∧ (∀ i line, readlines text !! i = Some line →
       starts_with_space (chomp line) = false →
       ends_with_space (chomp line) = false →
       load_subdomains text !! i = Some (chomp line)).
Proof.
  unfold load_subdomains. change (map strip (readlines text))
    with (strip <$> readlines text).
  split; [apply length_fmap|]. split.
  - intros i line Hline.
    destruct (strip_spec line) as (pre & post & Heq & Hpre & Hpost & Hs & He).
    exists (strip line), pre, post.
    rewrite list_lookup_fmap, Hline. done.
  - intros i line Hline Hs He.
    rewrite list_lookup_fmap, Hline. simpl. f_equal.
    by apply strip_clean_line.
Qed.

(** C8 as stated fails: the line [" www"] is delivered as ["www"], not
    as the line without its line feed. *)
Lemma C8_counterexample :
  load_subdomains (" www" +:+ nl) ≠ map chomp (readlines (" www" +:+ nl)).
Proof. vm_compute. discriminate. Qed.

(** ** The resolution worker *)

Section Worker.
Variables (net : network) (cfg : settings).
Variables (nameserver domain subdomain : string).

Let qname := full_subdomain_of subdomain domain.

(** The worker, case by case on the three replies. *)
Lemma check_subdomain_cases :
  check_subdomain net cfg nameserver domain subdomain =
    match net nameserver qname A (timeout cfg) with
    | Fails e => if catches dns_failures e then Ok None else Raise e
    | Answer _ =>
        match net nameserver qname MX (timeout cfg) with
        | Fails e =>
            if catches dns_failures e then
              match net nameserver qname CNAME (timeout cfg) with
              | Fails e' =>
                  if catches dns_failures e' then Ok (Some qname)
                  else Raise e'
              | Answer _ => Ok (Some qname)
              end
            else Raise e
        | Answer _ =>
            match net nameserver qname CNAME (timeout cfg) with
            | Fails e' =>
                if catches dns_failures e' then Ok (Some qname) else Raise e'
            | Answer _ => Ok (Some qname)
            end
        end
    end.
Proof.
  unfold check_subdomain, resolve. fold qname.
  destruct (net nameserver qname A (timeout cfg)) as [rrA|[]];
    destruct (net nameserver qname MX (timeout cfg)) as [rrM|[]];
    destruct (net nameserver qname CNAME (timeout cfg)) as [rrC|[]];
    reflexivity.
Qed.

Lemma check_subdomain_no_probes_cases :
  check_subdomain_no_probes net cfg nameserver domain subdomain =
    match net nameserver qname A (timeout cfg) with
    | Fails e => if catches dns_failures e then Ok None else Raise e
    | Answer _ => Ok (Some qname)
    end.
Proof.
  unfold check_subdomain_no_probes, resolve. fold qname.
  by destruct (net nameserver qname A (timeout cfg)) as [rrA|[]].
Qed.

(** A confirmed hostname is [<subdomain>.<domain>], which is truthy. *)
Lemma check_subdomain_Some (h : string) :
  check_subdomain net cfg nameserver domain subdomain = Ok (Some h) →
  h = qname ∧ truthy h = true.
Proof.
  rewrite check_subdomain_cases. intros Hh.
  assert (h = qname) as ->.
  { repeat match type of Hh with
           | match ?x with _ => _ end = _ => destruct x
           | (if ?b then _ else _) = _ => destruct b
           end; congruence. }
  split; [done|]. unfold qname, full_subdomain_of. by destruct subdomain.
Qed.

End Worker.

(** C4 - Resolution-worker contract, as amended.  The worker returns
    [<candidate>.<domain>] exactly when the A query is answered and each of
    the two probes is answered or fails with a recognized DNS exception; it
    returns nothing when the A query fails with a recognized DNS exception;
    and an exception that leaves the worker is never a recognized one. *)
Theorem C4_worker_contract (net : network) (cfg : settings)
    (nameserver domain subdomain : string) :
  (check_subdomain net cfg nameserver domain subdomain
     = Ok (Some (full_subdomain_of subdomain domain))
   ↔ answered net cfg nameserver (full_subdomain_of subdomain domain) A
     ∧ benign net cfg nameserver (full_subdomain_of subdomain domain) MX
     ∧ benign net cfg nameserver (full_subdomain_of subdomain domain) CNAME)
  ∧ (∀ h, check_subdomain net cfg nameserver domain subdomain = Ok (Some h) →
       h = full_subdomain_of subdomain domain)
  ∧ (∀ e, net nameserver (full_subdomain_of subdomain domain) A (timeout cfg)
            = Fails e →
       recognized e →
       check_subdomain net cfg nameserver domain subdomain = Ok None)
  ∧ (∀ e, check_subdomain net cfg nameserver domain subdomain = Raise e →
       ¬ recognized e).
Proof.
  split; [|split; [|split]].
  - rewrite check_subdomain_cases. unfold answered, benign, recognized.
    destruct (net nameserver _ A (timeout cfg)) as [rrA|eA] eqn:HA.
    + destruct (net nameserver _ MX (timeout cfg)) as [rrM|eM] eqn:HM;
        [|destruct (catches dns_failures eM) eqn:HcM];
        (destruct (net nameserver _ CNAME (timeout cfg)) as [rrC|eC] eqn:HC;
           [|destruct (catches dns_failures eC) eqn:HcC]);
        (split;
           [ first [ done
                   | intros _; split; [by eexists|];
                     split; intros e He;
                     (first [discriminate He | injection He as <-; assumption]) ]
           | first [ done
                   | intros (_ & HbM & HbC);
                     try (pose proof (HbM _ eq_refl));
                     try (pose proof (HbC _ eq_refl));
                     congruence ] ]).
    + split.
      * by destruct (catches dns_failures eA).
      * by intros ([rr Hrr] & _).
  - intros h Hh. by apply check_subdomain_Some in Hh as [-> _].
  - intros e HA He. rewrite check_subdomain_cases, HA.
    unfold recognized in He. by rewrite He.
  - intros e. rewrite check_subdomain_cases. unfold recognized.
    repeat match goal with
           | |- context [match net ?a ?b ?c ?d with _ => _ end] =>
               destruct (net a b c d)
           | |- context [if catches dns_failures ?x then _ else _] =>
               destruct (catches dns_failures x) eqn:?
           end; try done; intros [= <-]; congruence.
Qed.

(** C4 as stated fails: the A query is answered, the MX probe raises an
    exception that no clause catches, and the worker raises instead of
    returning the hostname. *)
Lemma C4_counterexample :
  ¬ (check_subdomain net_mx_crash cfg_example "8.8.8.8" "example.com" "www"
       = Ok (Some "www.example.com")
     ↔ answered net_mx_crash cfg_example "8.8.8.8" "www.example.com" A).
Proof.
  intros [_ Hif].
  assert (Ha : answered net_mx_crash cfg_example "8.8.8.8"
                 "www.example.com" A) by (by eexists).
  specialize (Hif Ha). vm_compute in Hif. discriminate.
Qed.

Example check_subdomain_mx_crash :
  check_subdomain net_mx_crash cfg_example "8.8.8.8" "example.com" "www"
  = Raise OtherError.
Proof. reflexivity. Qed.

(** C9 - The enrichment probes are a no-op.  When the replies to the
    worker's queries are answers or recognized DNS exceptions, the worker
    returns what the worker without the MX and CNAME probes returns; and
    its result does not depend on what the probes were answered. *)
Theorem C9_probes_are_no_op (net : network) (cfg : settings)
    (nameserver domain subdomain : string) :
  (∀ rd, benign net cfg nameserver (full_subdomain_of subdomain domain) rd) →
  check_subdomain net cfg nameserver domain subdomain
    = check_subdomain_no_probes net cfg nameserver domain subdomain
  ∧ (∀ net' : network,
       (∀ rd, benign net' cfg nameserver
                (full_subdomain_of subdomain domain) rd) →
       net' nameserver (full_subdomain_of subdomain domain) A (timeout cfg)
         = net nameserver (full_subdomain_of subdomain domain) A (timeout cfg) →
       check_subdomain net' cfg nameserver domain subdomain
         = check_subdomain net cfg nameserver domain subdomain).
Proof.
  assert (Hsame : ∀ n : network,
            (∀ rd, benign n cfg nameserver
                     (full_subdomain_of subdomain domain) rd) →
            check_subdomain n cfg nameserver domain subdomain
              = check_subdomain_no_probes n cfg nameserver domain subdomain).
  { intros n Hb. rewrite check_subdomain_cases, check_subdomain_no_probes_cases.
    pose proof (Hb MX) as HbM. pose proof (Hb CNAME) as HbC.
    unfold benign, recognized in HbM, HbC.
    destruct (n nameserver _ A (timeout cfg)) as [rrA|eA]; [|done].
    destruct (n nameserver _ MX (timeout cfg)) as [rrM|eM];
      [|rewrite (HbM eM eq_refl)];
      (destruct (n nameserver _ CNAME (timeout cfg)) as [rrC|eC];
         [|rewrite (HbC eC eq_refl)]); done. }
  intros Hb. split; [by apply Hsame|].
  intros net' Hb' HA. rewrite !Hsame by done.
  rewrite !check_subdomain_no_probes_cases, HA.
  destruct (net nameserver _ A (timeout cfg)); done.
Qed.

Lemma C9_probes_are_no_op_witness :
  (∀ rd, benign net_example cfg_example "8.8.8.8"
           (full_subdomain_of "www" "example.com") rd)
  ∧ check_subdomain net_example cfg_example "8.8.8.8" "example.com" "www"
    = check_subdomain_no_probes net_example cfg_example "8.8.8.8"
        "example.com" "www".
Proof.
  assert (H : ∀ rd, benign net_example cfg_example "8.8.8.8"
                      (full_subdomain_of "www" "example.com") rd).
  { intros [] e; vm_compute; intros [= <-]; reflexivity. }
  split; [exact H|].
  exact (proj1 (C9_probes_are_no_op net_example cfg_example "8.8.8.8"
                  "example.com" "www" H)).
Defined.

(** ** The batch coordinator *)

Section World.

Lemma world_eta (w : world) :
  {| files := files w; console := console w; trace := trace w |} = w.
Proof. by destruct w. Qed.

Lemma for_each_app {T : Type} (xs ys : list T) (body : T → M unit) :
  ∀ w, for_each (xs ++ ys) body w
       = (for_each xs body ;; for_each ys body) w.
Proof.
  induction xs as [|x xs IH]; intros w; [reflexivity|].
  cbn [app for_each]. unfold bind at 1 2 3.
  destruct (body x w) as [[[]|e] w']; [|reflexivity].
  rewrite IH. reflexivity.
Qed.

Lemma render_app (xs ys : list string) :
  render (xs ++ ys) = render xs +:+ render ys.
Proof.
  induction xs as [|x xs IH]; [done|]. simpl.
  rewrite IH, sapp_assoc. done.
Qed.

Lemma insert_alter_eq (f : string → string) (path x : string)
    (fs : gmap string string) :
  <[path := x]> (alter f path fs) = <[path := x]> fs.
Proof.
  apply map_eq. intros q. destruct (decide (path = q)) as [->|Hne].
  - by rewrite !lookup_insert_eq.
  - by rewrite !lookup_insert_ne, lookup_alter_ne.
Qed.

Lemma readlines_line (h rest : string) :
  sep_free LF h →
  readlines (h +:+ String LF rest) = (h +:+ nl) :: readlines rest.
Proof.
  unfold sep_free. induction h as [|c h IH]; intros Hh; [done|].
  rewrite !sapp_cons. simpl in *.
  apply andb_true_iff in Hh as [Hc Hh]. apply negb_true_iff in Hc.
  by rewrite Hc, IH.
Qed.

Lemma chomp_line (h : string) : chomp (h +:+ nl) = h.
Proof.
  induction h as [|c h IH]; [done|]. rewrite sapp_cons.
  cbn [chomp]. rewrite IH. by destruct h.
Qed.

(** The text appended for a batch reads back as its hostnames, one per
    line, when no hostname contains a line feed. *)
Lemma render_lines (hosts : list string) :
  Forall (sep_free LF) hosts →
  map chomp (readlines (render hosts)) = hosts.
Proof.
  induction 1 as [|h hosts Hh Hhosts IH]; [done|].
  change (render (h :: hosts)) with (h +:+ String LF (render hosts)).
  rewrite readlines_line by done.
  cbn [map]. by rewrite chomp_line, IH.
Qed.

(** The writing loop appends the rendered hostnames. *)
Lemma for_each_write (path : string) (hosts : list string) :
  ∀ (w : world) (old : string),
    files w !! path = Some old →
    for_each hosts (fun h => write path (h +:+ nl)) w
    = (Ok tt, {| files := <[path := old +:+ render hosts]> (files w);
                 console := console w; trace := trace w |}).
Proof.
  induction hosts as [|h hosts IH]; intros w old Hold.
  - simpl. unfold ret. rewrite sapp_nil_r, insert_id by done.
    by rewrite world_eta.
  - simpl. unfold bind, write at 1.
    rewrite (IH _ (old +:+ h +:+ nl)); cbn [files console trace].
    + rewrite insert_alter_eq. do 3 f_equal.
      rewrite !sapp_assoc. done.
    + by rewrite lookup_alter_eq, Hold.
Qed.

End World.

Section Batch.
Variables (net : network) (cfg : settings) (domain : string).

Lemma elem_of_build_tasks (valid_nameservers batch : list string)
    (ns sub : string) :
  (ns, sub) ∈ build_tasks valid_nameservers batch
  ↔ ns ∈ valid_nameservers ∧ sub ∈ batch.
Proof.
  unfold build_tasks. rewrite !list_elem_of_In, in_flat_map. split.
  - intros (x & Hx & Hin). by apply in_map_iff in Hin as (y & [= <- <-] & Hy).
  - intros [Hns Hsub]. exists ns. split; [done|].
    apply in_map_iff. by exists sub.
Qed.

Lemma task_wrapper_cases (t : string * string) (U : gset string) :
  task_wrapper net cfg domain t U =
    match check_subdomain net cfg t.1 domain t.2 with
    | Ok (Some h) => Ok ({[ h ]} ∪ U)
    | Ok None => Ok U
    | Raise e => Raise e
    end.
Proof.
  unfold task_wrapper.
  destruct (check_subdomain net cfg t.1 domain t.2) as [[h|]|e] eqn:Hc;
    simpl; try done.
  apply check_subdomain_Some in Hc as [_ ->]. done.
Qed.

(** The set after the gather: what it held before, and the hostnames
    the tasks returned. *)
Lemma gather_spec (tasks : list (string * string)) :
  ∀ (U0 U : gset string),
    gather net cfg domain tasks U0 = Ok U →
    ∀ h, h ∈ U ↔ h ∈ U0
                 ∨ ∃ t, t ∈ tasks
                        ∧ check_subdomain net cfg t.1 domain t.2 = Ok (Some h).
Proof.
  induction tasks as [|t ts IH]; intros U0 U; simpl.
  - intros [= <-] h. split; [by left|]. intros [?|(t & Ht & _)]; [done|].
    by apply elem_of_nil in Ht.
  - rewrite task_wrapper_cases.
    destruct (check_subdomain net cfg t.1 domain t.2) as [[h'|]|e] eqn:Hc;
      simpl; [| |done]; intros HU h; rewrite (IH _ _ HU h).
    + rewrite elem_of_union, elem_of_singleton. split.
      * intros [[->|?]|(t' & Ht' & Hh)]; [right|by left|right].
        -- exists t. split; [by left|done].
        -- exists t'. split; [by right|done].
      * intros [?|(t' & Ht' & Hh)]; [by left; right|].
        apply elem_of_cons in Ht' as [->|Ht'].
        -- left; left. congruence.
        -- right. by exists t'.
    + split.
      * intros [?|(t' & Ht' & Hh)]; [by left|right].
        exists t'. split; [by right|done].
      * intros [?|(t' & Ht' & Hh)]; [by left|].
        apply elem_of_cons in Ht' as [->|Ht']; [congruence|].
        right. by exists t'.
Qed.

Lemma gather_returns (tasks : list (string * string)) :
  ∀ U0 : gset string,
    (∀ t, t ∈ tasks → returns (check_subdomain net cfg t.1 domain t.2)) →
    returns (gather net cfg domain tasks U0).
Proof.
  induction tasks as [|t ts IH]; intros U0 Hall; simpl; [done|].
  rewrite task_wrapper_cases.
  pose proof (Hall t ltac:(by left)) as Ht.
  destruct (check_subdomain net cfg t.1 domain t.2) as [[h|]|e];
    simpl in *; [| |done]; apply IH; intros t' Ht'; apply Hall; by right.
Qed.

Lemma gather_ok_returns (tasks : list (string * string)) :
  ∀ U0 U : gset string,
    gather net cfg domain tasks U0 = Ok U →
    ∀ t, t ∈ tasks → returns (check_subdomain net cfg t.1 domain t.2).
Proof.
  induction tasks as [|t ts IH]; intros U0 U; simpl.
  - intros _ t Ht. by apply elem_of_nil in Ht.
  - rewrite task_wrapper_cases.
    destruct (check_subdomain net cfg t.1 domain t.2) as [[h|]|e] eqn:Hc;
      simpl; [| |done]; intros HU t' [->|Ht']%elem_of_cons;
      try (by rewrite Hc); by eapply IH.
Qed.

Lemma gather_raise (tasks : list (string * string)) :
  ∀ (U0 : gset string) (e : exc),
    gather net cfg domain tasks U0 = Raise e →
    ∃ t, t ∈ tasks ∧ check_subdomain net cfg t.1 domain t.2 = Raise e.
Proof.
  induction tasks as [|t ts IH]; intros U0 e; simpl; [done|].
  rewrite task_wrapper_cases.
  destruct (check_subdomain net cfg t.1 domain t.2) as [[h|]|e'] eqn:Hc;
    simpl.
  - intros (t' & Ht' & Hr)%IH. exists t'. split; [by right|done].
  - intros (t' & Ht' & Hr)%IH. exists t'. split; [by right|done].
  - intros [= ->]. exists t. split; [by left|done].
Qed.

(** The order in which the tasks run does not change the set. *)
Lemma gather_Permutation (tasks tasks' : list (string * string))
    (U0 U : gset string) :
  tasks ≡ₚ tasks' →
  gather net cfg domain tasks U0 = Ok U →
  gather net cfg domain tasks' U0 = Ok U.
Proof.
  intros Hperm HU.
  pose proof (gather_returns tasks' U0) as Hret.
  destruct (gather net cfg domain tasks' U0) as [U'|e] eqn:HU'.
  - f_equal. apply set_eq. intros h.
    rewrite (gather_spec _ _ _ HU h), (gather_spec _ _ _ HU' h).
    split; (intros [?|(t & Ht & Hh)]; [by left|right]; exists t;
            split; [|done]).
    + by rewrite Hperm.
    + by rewrite <- Hperm.
  - exfalso. apply Hret. intros t Ht.
    apply (gather_ok_returns tasks U0 U HU). by rewrite Hperm.
Qed.

Variables (valid_nameservers batch : list string) (output_file : string).

Lemma tasks_return_gather :
  tasks_return net cfg domain valid_nameservers batch →
  gather net cfg domain (build_tasks valid_nameservers batch) ∅
  = Ok (batch_hits net cfg domain valid_nameservers batch).
Proof.
  intros Hret. unfold batch_hits.
  pose proof (gather_returns (build_tasks valid_nameservers batch) ∅) as Hg.
  destruct (gather net cfg domain (build_tasks valid_nameservers batch) ∅);
    [done|].
  exfalso. apply Hg. intros [ns sub] Ht.
  apply elem_of_build_tasks in Ht as [Hns Hsub]. by apply Hret.
Qed.

(** The set of a batch holds exactly the hostnames its tasks returned. *)
Lemma batch_hits_confirmed (h : string) :
  tasks_return net cfg domain valid_nameservers batch →
  h ∈ batch_hits net cfg domain valid_nameservers batch
  ↔ confirmed net cfg domain valid_nameservers batch h.
Proof.
  intros Hret. rewrite (gather_spec _ _ _ (tasks_return_gather Hret) h).
  unfold confirmed. split.
  - intros [?|([ns sub] & Ht & Hh)]; [done|].
    apply elem_of_build_tasks in Ht as [Hns Hsub]. by exists ns, sub.
  - intros (ns & sub & Hns & Hsub & Hh). right. exists (ns, sub).
    split; [by apply elem_of_build_tasks|done].
Qed.

Lemma process_batch_ok (w : world) (U : gset string) :
  0 < threads cfg →
  gather net cfg domain (build_tasks valid_nameservers batch) ∅ = Ok U →
  process_batch net cfg domain valid_nameservers batch output_file w
  = (Ok tt,
     {| files := <[output_file :=
                     content_of (files w) output_file
                     +:+ render (elements U)]> (files w);
        console := console w;
        trace := trace w ++ [Call_process_batch domain batch output_file] |}).
Proof.
  intros Hthreads HU.
  unfold process_batch, bind, record_call, lift, Semaphore,
    ThreadPoolExecutor.
  rewrite (proj2 (Z.ltb_ge _ _)) by lia.
  rewrite (proj2 (Z.leb_gt _ _)) by lia.
  rewrite HU. unfold open_append. cbn [files console trace].
  rewrite (for_each_write output_file (elements U) _
             (content_of (files w) output_file)); cbn [files console trace].
  - do 2 f_equal. destruct (files w !! output_file); [done|].
    by rewrite insert_insert_eq.
  - unfold content_of. destruct (files w !! output_file) eqn:Hf; [done|].
    by rewrite lookup_insert_eq.
Qed.

Lemma process_batch_raise (w : world) (e : exc) :
  0 < threads cfg →
  gather net cfg domain (build_tasks valid_nameservers batch) ∅ = Raise e →
  process_batch net cfg domain valid_nameservers batch output_file w
  = (Raise e,
     {| files := files w; console := console w;
        trace := trace w ++ [Call_process_batch domain batch output_file] |}).
Proof.
  intros Hthreads HU.
  unfold process_batch, bind, record_call, lift, Semaphore,
    ThreadPoolExecutor.
  rewrite (proj2 (Z.ltb_ge _ _)) by lia.
  rewrite (proj2 (Z.leb_gt _ _)) by lia.
  by rewrite HU.
Qed.

End Batch.

(** C2 - Within-batch deduplication.  When its tasks let no exception
    escape, a batch appends to the output file one line for each hostname
    of a duplicate-free list that holds exactly the hostnames its tasks
    returned: a hostname is written once, however many (resolver,
    candidate) tasks returned it. *)
Theorem C2_batch_dedup (net : network) (cfg : settings) (domain : string)
    (valid_nameservers batch : list string) (output_file : string)
    (w : world) :
  0 < threads cfg →
  tasks_return net cfg domain valid_nameservers batch →
  ∃ written : list string,
    process_batch net cfg domain valid_nameservers batch output_file w
    = (Ok tt,
       {| files := <[output_file :=
                       content_of (files w) output_file +:+ render written]>
                     (files w);
          console := console w;
          trace := trace w ++ [Call_process_batch domain batch output_file] |})
    ∧ written = elements (batch_hits net cfg domain valid_nameservers batch)
    ∧ NoDup written
    ∧ (∀ h, h ∈ written ↔ confirmed net cfg domain valid_nameservers batch h)
    ∧ (∀ h, confirmed net cfg domain valid_nameservers batch h →
         count_occ string_dec written h = 1%nat).
Proof.
  intros Hthreads Hret.
  exists (elements (batch_hits net cfg domain valid_nameservers batch)).
  assert (Hmem : ∀ h,
            h ∈ elements (batch_hits net cfg domain valid_nameservers batch)
            ↔ confirmed net cfg domain valid_nameservers batch h).
  { intros h. rewrite elem_of_elements. by apply batch_hits_confirmed. }
  split; [|split; [done|split; [apply NoDup_elements|split; [done|]]]].
  - apply process_batch_ok; [done|by apply tasks_return_gather].
  - intros h Hh.
    apply NoDup_count_occ'; [apply NoDup_ListNoDup, NoDup_elements|].
    apply list_elem_of_In. by apply Hmem.
Qed.

Lemma C2_batch_dedup_witness :
  0 < threads cfg_example
  ∧ tasks_return net_example cfg_example "example.com"
      ["8.8.8.8"; "1.1.1.1"] ["www"; "mail"; "bogus-xyz-123"]
  ∧ ∃ written : list string,
      process_batch net_example cfg_example "example.com"
        ["8.8.8.8"; "1.1.1.1"] ["www"; "mail"; "bogus-xyz-123"]
        "out/example.com.txt" empty_world
      = (Ok tt,
         {| files := <["out/example.com.txt" :=
                         content_of (files empty_world) "out/example.com.txt"
                         +:+ render written]> (files empty_world);
            console := console empty_world;
            trace := trace empty_world
                     ++ [Call_process_batch "example.com"
                           ["www"; "mail"; "bogus-xyz-123"]
                           "out/example.com.txt"] |})
      ∧ written = elements (batch_hits net_example cfg_example "example.com"
                              ["8.8.8.8"; "1.1.1.1"]
                              ["www"; "mail"; "bogus-xyz-123"])
      ∧ NoDup written
      ∧ (∀ h, h ∈ written
              ↔ confirmed net_example cfg_example "example.com"
                  ["8.8.8.8"; "1.1.1.1"] ["www"; "mail"; "bogus-xyz-123"] h)
      ∧ (∀ h, confirmed net_example cfg_example "example.com"
                ["8.8.8.8"; "1.1.1.1"] ["www"; "mail"; "bogus-xyz-123"] h →
           count_occ string_dec written h = 1%nat).
Proof.
  assert (Ht : 0 < threads cfg_example) by reflexivity.
  assert (Hr : tasks_return net_example cfg_example "example.com"
                 ["8.8.8.8"; "1.1.1.1"] ["www"; "mail"; "bogus-xyz-123"]).
  { intros ns sub Hns Hsub.
    elem_cases Hns; elem_cases Hsub; vm_compute; exact I. }
  split; [exact Ht|]. split; [exact Hr|].
  exact (C2_batch_dedup net_example cfg_example "example.com"
           ["8.8.8.8"; "1.1.1.1"] ["www"; "mail"; "bogus-xyz-123"]
           "out/example.com.txt" empty_world Ht Hr).
Defined.

(** Two resolvers confirm [www.example.com] and [mail.example.com]; each
    is written once. *)
Example process_batch_two_resolvers :
  (process_batch net_example cfg_example "example.com"
     ["8.8.8.8"; "1.1.1.1"] ["www"; "mail"; "bogus-xyz-123"]
     "out/example.com.txt" empty_world).2.(files)
  !! "out/example.com.txt"
  = Some ("www.example.com" +:+ nl +:+ "mail.example.com" +:+ nl).
Proof. vm_compute. reflexivity. Qed.

(** ** The domain pipeline *)

Section Domain.
Variables (net : network) (cfg : settings) (domain : string).
Variable valid_nameservers : list string.
Variable output_file : string.

Lemma content_of_insert (fs : gmap string string) (x : string) :
  content_of (<[output_file := x]> fs) output_file = x.
Proof. unfold content_of. by rewrite lookup_insert_eq. Qed.

Lemma content_after_batches (batches : list (list string))
    (written : list string) (fs : gmap string string) :
  (batches = [] → written = []) →
  content_of (after_batches output_file batches written fs) output_file
  = content_of fs output_file +:+ render written.
Proof.
  intros Hnil. destruct batches as [|b bs]; simpl.
  - rewrite (Hnil eq_refl). simpl. by rewrite sapp_nil_r.
  - apply content_of_insert.
Qed.

Lemma other_after_batches (batches : list (list string))
    (written : list string) (fs : gmap string string) (path : string) :
  path ≠ output_file →
  after_batches output_file batches written fs !! path = fs !! path.
Proof.
  intros Hne. destruct batches as [|b bs]; simpl; [done|].
  by rewrite lookup_insert_ne.
Qed.

(** The loop over the batches, when no task lets an exception escape. *)
Lemma run_batches_ok (batches : list (list string)) :
  0 < threads cfg →
  (∀ b, b ∈ batches → tasks_return net cfg domain valid_nameservers b) →
  ∀ w,
    run_batches net cfg domain valid_nameservers output_file batches w
    = (Ok tt,
       {| files := after_batches output_file batches
                     (domain_written net cfg domain valid_nameservers batches)
                     (files w);
          console := console w;
          trace := trace w ++ batch_calls domain output_file batches |}).
Proof.
  intros Hthreads. unfold run_batches.
  induction batches as [|b bs IH]; intros Hret w.
  - simpl. unfold ret. rewrite app_nil_r. by rewrite world_eta.
  - cbn [for_each]. unfold bind.
    rewrite (process_batch_ok net cfg domain valid_nameservers b
               output_file w _ Hthreads
               (tasks_return_gather net cfg domain valid_nameservers b
                  (Hret b ltac:(by left)))).
    rewrite IH by (intros b' Hb'; apply Hret; by right).
    cbn [files console trace batch_calls map].
    rewrite <- app_assoc. cbn [app]. do 2 f_equal.
    unfold domain_written. cbn [flat_map].
    destruct bs as [|b' bs]; cbn [after_batches].
    + simpl. by rewrite app_nil_r.
    + rewrite content_of_insert, insert_insert_eq, render_app, sapp_assoc.
      done.
Qed.

(** The loop stops at the first batch whose gather raises; the batches
    before it have been written, nothing else has. *)
Lemma run_batches_raise (done_ todo : list (list string))
    (failing : list string) (e : exc) :
  0 < threads cfg →
  (∀ b, b ∈ done_ → tasks_return net cfg domain valid_nameservers b) →
  gather net cfg domain (build_tasks valid_nameservers failing) ∅ = Raise e →
  ∀ w,
    run_batches net cfg domain valid_nameservers output_file
      (done_ ++ failing :: todo) w
    = (Raise e,
       {| files := after_batches output_file done_
                     (domain_written net cfg domain valid_nameservers done_)
                     (files w);
          console := console w;
          trace := trace w
                   ++ batch_calls domain output_file (done_ ++ [failing]) |}).
Proof.
  intros Hthreads Hret Hraise w. unfold run_batches.
  rewrite for_each_app. unfold bind at 1.
  fold (run_batches net cfg domain valid_nameservers output_file done_).
  rewrite run_batches_ok by done.
  cbn [for_each]. unfold bind.
  rewrite (process_batch_raise net cfg domain valid_nameservers failing
             output_file _ e Hthreads Hraise).
  cbn [files console trace]. unfold batch_calls.
  by rewrite map_app, app_assoc.
Qed.

End Domain.

Section DomainRun.
Variables (net : network) (cfg : settings) (domain : string).
Variable valid_nameservers : list string.

Lemma process_domain_run (w : world) (batches : list (list string)) :
  subdomain_batches (subdomains cfg) (batch_size cfg) = Ok batches →
  process_domain net cfg domain valid_nameservers w
  = run_batches net cfg domain valid_nameservers (output_file_of cfg domain)
      batches (entered domain w).
Proof.
  intros Hb. unfold process_domain, bind, record_call, lift.
  by rewrite Hb.
Qed.

(** Every batch is made of candidates of the word list. *)
Lemma batches_subset (candidates : list string) (B : nat)
    (batches : list (list string)) (b : list string) (sub : string) :
  subdomain_batches candidates B = Ok batches →
  b ∈ batches → sub ∈ b → sub ∈ candidates.
Proof.
  unfold subdomain_batches, range. destruct B as [|k]; [done|]. simpl.
  intros [= <-] Hb Hsub.
  apply list_elem_of_In, in_map_iff in Hb as (i & <- & _).
  unfold slice in Hsub. by apply subseteq_take, subseteq_drop in Hsub.
Qed.

Lemma tasks_return_batches (batches : list (list string)) :
  subdomain_batches (subdomains cfg) (batch_size cfg) = Ok batches →
  tasks_return net cfg domain valid_nameservers (subdomains cfg) →
  ∀ b, b ∈ batches → tasks_return net cfg domain valid_nameservers b.
Proof.
  intros Hb Hret b Hin ns sub Hns Hsub. apply Hret; [done|].
  by eapply batches_subset.
Qed.

Lemma count_occ_elements (X : gset string) (h : string) :
  count_occ string_dec (elements X) h = if decide (h ∈ X) then 1%nat else 0%nat.
Proof.
  case_decide as Hh.
  - apply NoDup_count_occ'; [apply NoDup_ListNoDup, NoDup_elements|].
    by apply list_elem_of_In, elem_of_elements.
  - apply count_occ_not_In. by rewrite <- list_elem_of_In, elem_of_elements.
Qed.

(** A hostname is written once for every batch whose set holds it. *)
Lemma count_domain_written (batches : list (list string)) (h : string) :
  count_occ string_dec
    (domain_written net cfg domain valid_nameservers batches) h
  = length (filter (fun b => h ∈ batch_hits net cfg domain valid_nameservers b)
              batches).
Proof.
  induction batches as [|b bs IH]; [done|].
  unfold domain_written in *. cbn [flat_map].
  rewrite count_occ_app, count_occ_elements, IH, filter_cons.
  by case_decide.
Qed.

Lemma filter_one {T : Type} (P : T → Prop) `{∀ x, Decision (P x)}
    (l : list T) (j : nat) (y : T) :
  l !! j = Some y → P y → (1 ≤ length (filter P l))%nat.
Proof.
  intros Hj Hy.
  assert (Hin : y ∈ filter P l).
  { apply list_elem_of_filter. split; [done|].
    by eapply list_elem_of_lookup_2. }
  destruct (filter P l); [by apply elem_of_nil in Hin|simpl; lia].
Qed.

Lemma filter_two {T : Type} (P : T → Prop) `{∀ x, Decision (P x)}
    (l : list T) : ∀ (i j : nat) (x y : T),
  (i < j)%nat → l !! i = Some x → l !! j = Some y → P x → P y →
  (2 ≤ length (filter P l))%nat.
Proof.
  induction l as [|a l IH]; intros i j x y Hij Hi Hj Hx Hy; [done|].
  destruct j as [|j]; [lia|]. cbn in Hj.
  destruct i as [|i]; cbn in Hi.
  - injection Hi as ->. rewrite filter_cons_True by done. simpl.
    pose proof (filter_one P l j y Hj Hy). lia.
  - pose proof (IH i j x y ltac:(lia) Hi Hj Hx Hy) as Hle.
    rewrite filter_cons. case_decide; simpl; lia.
Qed.

End DomainRun.

(** C3 - No deduplication across batches.  When no task lets an exception
    escape, a domain run appends the sets of its batches one after the
    other: a hostname is written once for every batch in which it was
    confirmed, so at least twice when two different batches confirm it. *)
Theorem C3_no_cross_batch_dedup (net : network) (cfg : settings)
    (domain : string) (valid_nameservers : list string) (w : world) :
  0 < threads cfg →
  (0 < batch_size cfg)%nat →
  tasks_return net cfg domain valid_nameservers (subdomains cfg) →
  ∃ (batches : list (list string)) (written : list string),
    subdomain_batches (subdomains cfg) (batch_size cfg) = Ok batches
    ∧ written = domain_written net cfg domain valid_nameservers batches
    ∧ (process_domain net cfg domain valid_nameservers w).1 = Ok tt
    ∧ content_of (files (process_domain net cfg domain valid_nameservers w).2)
        (output_file_of cfg domain)
      = content_of (files w) (output_file_of cfg domain) +:+ render written
    ∧ (∀ b h, b ∈ batches →
         h ∈ batch_hits net cfg domain valid_nameservers b
         ↔ confirmed net cfg domain valid_nameservers b h)
    ∧ (∀ h, count_occ string_dec written h
            = length (filter
                        (fun b => h ∈ batch_hits net cfg domain
                                        valid_nameservers b)
                        batches))
    ∧ (∀ i j b1 b2 h,
         i ≠ j → batches !! i = Some b1 → batches !! j = Some b2 →
         confirmed net cfg domain valid_nameservers b1 h →
         confirmed net cfg domain valid_nameservers b2 h →
         (2 ≤ count_occ string_dec written h)%nat).
Proof.
  intros Hthreads HB Hret.
  destruct (subdomain_batches_concat (subdomains cfg) (batch_size cfg) HB)
    as (batches & Hbatches & _).
  pose proof (tasks_return_batches net cfg domain valid_nameservers batches
                Hbatches Hret) as Hretb.
  exists batches, (domain_written net cfg domain valid_nameservers batches).
  split; [done|]. split; [done|].
  rewrite (process_domain_run net cfg domain valid_nameservers w batches
             Hbatches).
  rewrite run_batches_ok by done. cbn [fst snd files].
  split; [done|]. split.
  { apply content_after_batches. by intros ->. }
  assert (Hmem : ∀ b h, b ∈ batches →
            h ∈ batch_hits net cfg domain valid_nameservers b
            ↔ confirmed net cfg domain valid_nameservers b h).
  { intros b h Hb. apply batch_hits_confirmed. by apply Hretb. }
  split; [exact Hmem|]. split; [apply count_domain_written|].
  intros i j b1 b2 h Hij Hi Hj H1 H2. rewrite count_domain_written.
  assert (Hb1 : b1 ∈ batches) by (by eapply list_elem_of_lookup_2).
  assert (Hb2 : b2 ∈ batches) by (by eapply list_elem_of_lookup_2).
  apply Hmem in H1; [|done]. apply Hmem in H2; [|done].
  destruct (decide (i < j)%nat).
  - by eapply (filter_two _ batches i j b1 b2).
  - by eapply (filter_two _ batches j i b2 b1); [lia|..].
Qed.

Lemma C3_no_cross_batch_dedup_witness :
  0 < threads cfg_example
  ∧ (0 < batch_size cfg_example)%nat
  ∧ tasks_return net_example cfg_example "example.com"
      ["8.8.8.8"; "1.1.1.1"] (subdomains cfg_example)
  ∧ ∃ (batches : list (list string)) (written : list string),
      subdomain_batches (subdomains cfg_example) (batch_size cfg_example)
      = Ok batches
      ∧ written = domain_written net_example cfg_example "example.com"
                    ["8.8.8.8"; "1.1.1.1"] batches
      ∧ (process_domain net_example cfg_example "example.com"
           ["8.8.8.8"; "1.1.1.1"] empty_world).1 = Ok tt
      ∧ content_of
          (files (process_domain net_example cfg_example "example.com"
                    ["8.8.8.8"; "1.1.1.1"] empty_world).2)
          (output_file_of cfg_example "example.com")
        = content_of (files empty_world)
            (output_file_of cfg_example "example.com") +:+ render written
      ∧ (∀ b h, b ∈ batches →
           h ∈ batch_hits net_example cfg_example "example.com"
                 ["8.8.8.8"; "1.1.1.1"] b
           ↔ confirmed net_example cfg_example "example.com"
               ["8.8.8.8"; "1.1.1.1"] b h)
      ∧ (∀ h, count_occ string_dec written h
              = length (filter
                          (fun b => h ∈ batch_hits net_example cfg_example
                                          "example.com"
                                          ["8.8.8.8"; "1.1.1.1"] b)
                          batches))
      ∧ (∀ i j b1 b2 h,
           i ≠ j → batches !! i = Some b1 → batches !! j = Some b2 →
           confirmed net_example cfg_example "example.com"
             ["8.8.8.8"; "1.1.1.1"] b1 h →
           confirmed net_example cfg_example "example.com"
             ["8.8.8.8"; "1.1.1.1"] b2 h →
           (2 ≤ count_occ string_dec written h)%nat).
Proof.
  assert (Ht : 0 < threads cfg_example) by reflexivity.
  assert (HB : (0 < batch_size cfg_example)%nat) by (simpl; lia).
  assert (Hr : tasks_return net_example cfg_example "example.com"
                 ["8.8.8.8"; "1.1.1.1"] (subdomains cfg_example)).
  { intros ns sub Hns Hsub. simpl in Hsub.
    elem_cases Hns; elem_cases Hsub; vm_compute; exact I. }
  split; [exact Ht|]. split; [exact HB|]. split; [exact Hr|].
  exact (C3_no_cross_batch_dedup net_example cfg_example "example.com"
           ["8.8.8.8"; "1.1.1.1"] empty_world Ht HB Hr).
Defined.

(** [www] is in the word list twice, in two different batches, and
    [www.example.com] is written twice. *)
Example process_domain_writes_twice :
  (process_domain net_example cfg_example "example.com"
     ["8.8.8.8"; "1.1.1.1"] empty_world).2.(files)
  !! "out/example.com.txt"
  = Some ("www.example.com" +:+ nl +:+ "mail.example.com" +:+ nl
          +:+ "www.example.com" +:+ nl).
Proof. vm_compute. reflexivity. Qed.

(** ** Persistence *)

Section Persistence.
Variables (net : network) (cfg : settings) (domain : string).
Variable valid_nameservers : list string.

(** A batch some task of which lets an exception escape makes the
    gather raise. *)
Lemma gather_raises (batch : list string) :
  ¬ tasks_return net cfg domain valid_nameservers batch →
  ∃ e, gather net cfg domain (build_tasks valid_nameservers batch) ∅
       = Raise e.
Proof.
  intros Hnot.
  destruct (gather net cfg domain (build_tasks valid_nameservers batch) ∅)
    as [U|e] eqn:HU; [|by exists e].
  exfalso. apply Hnot. intros ns sub Hns Hsub.
  apply (gather_ok_returns net cfg domain _ _ _ HU (ns, sub)).
  by apply elem_of_build_tasks.
Qed.

End Persistence.

(** C7 - Incremental persistence, as amended.  When the first [k] batches
    of a domain run let no exception escape, the run reaches, after batch
    [k], a world in which the output file holds what it held when the run
    started followed by the lines of the batches 1..k, in order, and every
    other file is untouched; the run continues from that world, and when
    batch [k + 1] raises, the run ends with the files of that world. *)
Theorem C7_append_only_persistence (net : network) (cfg : settings)
    (domain : string) (valid_nameservers : list string) (w : world)
    (batches : list (list string)) (k : nat) :
  0 < threads cfg →
  subdomain_batches (subdomains cfg) (batch_size cfg) = Ok batches →
  (k ≤ length batches)%nat →
  (∀ b, b ∈ take k batches →
     tasks_return net cfg domain valid_nameservers b) →
  ∃ wk : world,
    run_batches net cfg domain valid_nameservers (output_file_of cfg domain)
      (take k batches) (entered domain w) = (Ok tt, wk)
    ∧ process_domain net cfg domain valid_nameservers w
      = run_batches net cfg domain valid_nameservers
          (output_file_of cfg domain) (drop k batches) wk
    ∧ content_of (files wk) (output_file_of cfg domain)
      = content_of (files w) (output_file_of cfg domain)
        +:+ render (domain_written net cfg domain valid_nameservers
                      (take k batches))
    ∧ (∀ path, path ≠ output_file_of cfg domain →
         files wk !! path = files w !! path)
    ∧ (∀ next, batches !! k = Some next →
         ¬ tasks_return net cfg domain valid_nameservers next →
         ∃ e w', process_domain net cfg domain valid_nameservers w
                 = (Raise e, w')
                 ∧ files w' = files wk).
Proof.
  intros Hthreads Hbatches Hk Hret.
  pose proof (run_batches_ok net cfg domain valid_nameservers
                (output_file_of cfg domain) (take k batches) Hthreads Hret
                (entered domain w)) as Hrun.
  eexists. split; [exact Hrun|]. cbn [files console trace entered].
  split; [|split; [|split]].
  - rewrite (process_domain_run net cfg domain valid_nameservers w batches
               Hbatches).
    rewrite <- (take_drop k batches) at 1.
    unfold run_batches in *. rewrite for_each_app. unfold bind at 1.
    by rewrite Hrun.
  - apply content_after_batches. by intros ->.
  - intros path Hpath. by apply other_after_batches.
  - intros next Hnext Hnot.
    destruct (gather_raises net cfg domain valid_nameservers next Hnot)
      as [e He].
    exists e. eexists. split.
    + rewrite (process_domain_run net cfg domain valid_nameservers w batches
                 Hbatches).
      rewrite <- (take_drop_middle batches k next Hnext) at 1.
      rewrite (run_batches_raise net cfg domain valid_nameservers
                 (output_file_of cfg domain) (take k batches)
                 (drop (S k) batches) next e Hthreads Hret He).
      reflexivity.
    + reflexivity.
Qed.

Lemma C7_append_only_persistence_witness :
  0 < threads cfg_crash
  ∧ subdomain_batches (subdomains cfg_crash) (batch_size cfg_crash)
    = Ok [["www"]; ["crash"]; ["mail"]]
  ∧ (1 ≤ length [["www"]; ["crash"]; ["mail"]])%nat
  ∧ (∀ b, b ∈ take 1 [["www"]; ["crash"]; ["mail"]] →
       tasks_return net_crash cfg_crash "example.com" ["8.8.8.8"] b)
  ∧ ∃ wk : world,
      run_batches net_crash cfg_crash "example.com" ["8.8.8.8"]
        (output_file_of cfg_crash "example.com")
        (take 1 [["www"]; ["crash"]; ["mail"]])
        (entered "example.com" world_old) = (Ok tt, wk)
      ∧ process_domain net_crash cfg_crash "example.com" ["8.8.8.8"] world_old
        = run_batches net_crash cfg_crash "example.com" ["8.8.8.8"]
            (output_file_of cfg_crash "example.com")
            (drop 1 [["www"]; ["crash"]; ["mail"]]) wk
      ∧ content_of (files wk) (output_file_of cfg_crash "example.com")
        = content_of (files world_old) (output_file_of cfg_crash "example.com")
          +:+ render (domain_written net_crash cfg_crash "example.com"
                        ["8.8.8.8"] (take 1 [["www"]; ["crash"]; ["mail"]]))
      ∧ (∀ path, path ≠ output_file_of cfg_crash "example.com" →
           files wk !! path = files world_old !! path)
      ∧ (∀ next, [["www"]; ["crash"]; ["mail"]] !! 1%nat = Some next →
           ¬ tasks_return net_crash cfg_crash "example.com" ["8.8.8.8"] next →
           ∃ e w', process_domain net_crash cfg_crash "example.com"
                     ["8.8.8.8"] world_old = (Raise e, w')
                   ∧ files w' = files wk).
Proof.
  assert (Ht : 0 < threads cfg_crash) by reflexivity.
  assert (Hb : subdomain_batches (subdomains cfg_crash) (batch_size cfg_crash)
               = Ok [["www"]; ["crash"]; ["mail"]]) by reflexivity.
  assert (Hk : (1 ≤ length [["www"]; ["crash"]; ["mail"]])%nat)
    by (simpl; lia).
  assert (Hr : ∀ b, b ∈ take 1 [["www"]; ["crash"]; ["mail"]] →
                 tasks_return net_crash cfg_crash "example.com" ["8.8.8.8"] b).
  { intros b Hin ns sub Hns Hsub. simpl in Hin.
    elem_cases Hin; elem_cases Hns; elem_cases Hsub; vm_compute; exact I. }
  split; [exact Ht|]. split; [exact Hb|]. split; [exact Hk|].
  split; [exact Hr|].
  exact (C7_append_only_persistence net_crash cfg_crash "example.com"
           ["8.8.8.8"] world_old [["www"]; ["crash"]; ["mail"]] 1 Ht Hb Hk Hr).
Defined.

(** The second batch raises: the run ends with the line of the first
    batch appended to what the file held, and the third batch never runs. *)
Example process_domain_crash :
  (process_domain net_crash cfg_crash "example.com" ["8.8.8.8"] world_old).1
  = Raise OtherError
  ∧ (process_domain net_crash cfg_crash "example.com" ["8.8.8.8"]
       world_old).2.(files) !! "out/example.com.txt"
    = Some ("old.example.com" +:+ nl +:+ "www.example.com" +:+ nl).
Proof. split; vm_compute; reflexivity. Qed.

(** C7 as stated fails: the output file is opened for appending, so after
    a complete run it also holds the line it held before the run, which no
    batch of the run wrote. *)
Lemma C7_counterexample :
  subdomain_batches (subdomains cfg_example) (batch_size cfg_example)
  = Ok [["www"; "mail"; "bogus-xyz-123"]; ["www"]]
  ∧ (process_domain net_example cfg_example "example.com" ["8.8.8.8"]
       world_old).1 = Ok tt
  ∧ content_of
      (files (process_domain net_example cfg_example "example.com"
                ["8.8.8.8"] world_old).2) "out/example.com.txt"
    ≠ render (domain_written net_example cfg_example "example.com"
                ["8.8.8.8"] [["www"; "mail"; "bogus-xyz-123"]; ["www"]]).
Proof.
  split; [reflexivity|]. split; [vm_compute; reflexivity|].
  vm_compute. discriminate.
Qed.

(** ** The output file of a batch *)

Section OutputFile.
Variables (net : network) (cfg : settings) (domain : string).
Variable valid_nameservers : list string.

Lemma confirmed_mono (b1 b2 : list string) (h : string) :
  b1 ⊆ b2 →
  confirmed net cfg domain valid_nameservers b1 h →
  confirmed net cfg domain valid_nameservers b2 h.
Proof.
  intros Hsub (ns & sub & Hns & Hin & Hh). exists ns, sub.
  split; [done|]. split; [by apply Hsub|done].
Qed.

Lemma tasks_return_mono (b1 b2 : list string) :
  b1 ⊆ b2 →
  tasks_return net cfg domain valid_nameservers b2 →
  tasks_return net cfg domain valid_nameservers b1.
Proof. intros Hsub Hret ns sub Hns Hin. apply Hret; [done|by apply Hsub]. Qed.

Lemma batch_hits_empty (batch : list string) :
  tasks_return net cfg domain valid_nameservers batch →
  (∀ h, ¬ confirmed net cfg domain valid_nameservers batch h) →
  batch_hits net cfg domain valid_nameservers batch = ∅.
Proof.
  intros Hret Hnone. apply set_eq. intros h.
  rewrite (batch_hits_confirmed net cfg domain valid_nameservers batch h Hret).
  split; [by intros ?%Hnone|]. intros Hh. by apply not_elem_of_empty in Hh.
Qed.

Lemma domain_written_nil (batches : list (list string)) :
  (∀ b, b ∈ batches →
     batch_hits net cfg domain valid_nameservers b = ∅) →
  domain_written net cfg domain valid_nameservers batches = [].
Proof.
  unfold domain_written. induction batches as [|b bs IH]; intros Hall;
    [done|].
  cbn [flat_map]. rewrite (Hall b) by (by left).
  rewrite elements_empty, IH; [done|]. intros b' Hb'. apply Hall. by right.
Qed.

Lemma lookup_after_batches (output_file : string)
    (batches : list (list string)) (written : list string)
    (fs : gmap string string) :
  batches ≠ [] →
  after_batches output_file batches written fs !! output_file
  = Some (content_of fs output_file +:+ render written).
Proof.
  intros Hne. destruct batches as [|b bs]; [done|].
  cbn [after_batches]. apply lookup_insert_eq.
Qed.

End OutputFile.

(** C10 - The output file exists after a batch, as amended.  When no
    task lets an exception escape, every batch, when it returns, leaves the
    output file in existence, empty when the file was missing and the batch
    confirmed nothing; so a domain run with at least one candidate, hence
    at least one batch, leaves the file in existence, empty when the file
    was missing and nothing was confirmed. *)
Theorem C10_output_file_created (net : network) (cfg : settings)
    (domain : string) (valid_nameservers : list string) (w : world) :
  0 < threads cfg →
  (0 < batch_size cfg)%nat →
  tasks_return net cfg domain valid_nameservers (subdomains cfg) →
  (∀ batch w0,
     batch ⊆ subdomains cfg →
     (process_batch net cfg domain valid_nameservers batch
        (output_file_of cfg domain) w0).1 = Ok tt
     ∧ is_Some (files (process_batch net cfg domain valid_nameservers batch
                         (output_file_of cfg domain) w0).2
                !! output_file_of cfg domain)
     ∧ ((∀ h, ¬ confirmed net cfg domain valid_nameservers batch h) →
        files w0 !! output_file_of cfg domain = None →
        files (process_batch net cfg domain valid_nameservers batch
                 (output_file_of cfg domain) w0).2
        !! output_file_of cfg domain = Some ""))
  ∧ (subdomains cfg ≠ [] →
     (process_domain net cfg domain valid_nameservers w).1 = Ok tt
     ∧ is_Some (files (process_domain net cfg domain valid_nameservers w).2
                !! output_file_of cfg domain)
     ∧ ((∀ h, ¬ confirmed net cfg domain valid_nameservers
                  (subdomains cfg) h) →
        files w !! output_file_of cfg domain = None →
        files (process_domain net cfg domain valid_nameservers w).2
        !! output_file_of cfg domain = Some "")).
Proof.
  intros Hthreads HB Hret. split.
  - intros batch w0 Hsub.
    pose proof (tasks_return_mono net cfg domain valid_nameservers batch
                  (subdomains cfg) Hsub Hret) as Hretb.
    rewrite (process_batch_ok net cfg domain valid_nameservers batch
               (output_file_of cfg domain) w0 _ Hthreads
               (tasks_return_gather net cfg domain valid_nameservers batch
                  Hretb)).
    cbn [fst snd files]. rewrite lookup_insert_eq.
    split; [done|]. split; [by eexists|].
    intros Hnone Habsent.
    rewrite (batch_hits_empty net cfg domain valid_nameservers batch Hretb
               Hnone).
    rewrite elements_empty. unfold content_of. by rewrite Habsent.
  - intros Hne.
    destruct (subdomain_batches_concat (subdomains cfg) (batch_size cfg) HB)
      as (batches & Hbatches & Hcat).
    assert (Hbne : batches ≠ []).
    { intros ->. by rewrite <- Hcat in Hne. }
    pose proof (tasks_return_batches net cfg domain valid_nameservers batches
                  Hbatches Hret) as Hretb.
    rewrite (process_domain_run net cfg domain valid_nameservers w batches
               Hbatches).
    rewrite run_batches_ok by done. cbn [fst snd files entered].
    rewrite lookup_after_batches by done.
    split; [done|]. split; [by eexists|].
    intros Hnone Habsent.
    rewrite domain_written_nil.
    + unfold content_of. by rewrite Habsent.
    + intros b Hb. apply batch_hits_empty; [by apply Hretb|].
      intros h Hh. apply (Hnone h).
      eapply confirmed_mono; [|exact Hh].
      intros sub Hsub. by eapply batches_subset.
Qed.

Lemma C10_output_file_created_witness :
  0 < threads cfg_example
  ∧ (0 < batch_size cfg_example)%nat
  ∧ tasks_return net_down cfg_example "example.com" ["8.8.8.8"]
      (subdomains cfg_example)
  ∧ (∀ batch w0,
       batch ⊆ subdomains cfg_example →
       (process_batch net_down cfg_example "example.com" ["8.8.8.8"] batch
          (output_file_of cfg_example "example.com") w0).1 = Ok tt
       ∧ is_Some (files (process_batch net_down cfg_example "example.com"
                           ["8.8.8.8"] batch
                           (output_file_of cfg_example "example.com") w0).2
                  !! output_file_of cfg_example "example.com")
       ∧ ((∀ h, ¬ confirmed net_down cfg_example "example.com" ["8.8.8.8"]
                    batch h) →
          files w0 !! output_file_of cfg_example "example.com" = None →
          files (process_batch net_down cfg_example "example.com" ["8.8.8.8"]
                   batch (output_file_of cfg_example "example.com") w0).2
          !! output_file_of cfg_example "example.com" = Some ""))
  ∧ (subdomains cfg_example ≠ [] →
     (process_domain net_down cfg_example "example.com" ["8.8.8.8"]
        empty_world).1 = Ok tt
     ∧ is_Some (files (process_domain net_down cfg_example "example.com"
                         ["8.8.8.8"] empty_world).2
                !! output_file_of cfg_example "example.com")
     ∧ ((∀ h, ¬ confirmed net_down cfg_example "example.com" ["8.8.8.8"]
                  (subdomains cfg_example) h) →
        files empty_world !! output_file_of cfg_example "example.com" = None →
        files (process_domain net_down cfg_example "example.com" ["8.8.8.8"]
                 empty_world).2
        !! output_file_of cfg_example "example.com" = Some "")).
Proof.
  assert (Ht : 0 < threads cfg_example) by reflexivity.
  assert (HB : (0 < batch_size cfg_example)%nat) by (simpl; lia).
  assert (Hr : tasks_return net_down cfg_example "example.com" ["8.8.8.8"]
                 (subdomains cfg_example)).
  { intros ns sub Hns Hsub. simpl in Hsub.
    elem_cases Hns; elem_cases Hsub; vm_compute; exact I. }
  split; [exact Ht|]. split; [exact HB|]. split; [exact Hr|].
  exact (C10_output_file_created net_down cfg_example "example.com"
           ["8.8.8.8"] empty_world Ht HB Hr).
Defined.

(** C10 as stated fails: with an empty word list the domain is
    processed, its run returns with nothing confirmed, no batch has run,
    and the output file, missing before, is still missing. *)
Lemma C10_counterexample :
  0 < threads cfg_no_candidates
  ∧ (0 < batch_size cfg_no_candidates)%nat
  ∧ tasks_return net_example cfg_no_candidates "example.com" ["8.8.8.8"]
      (subdomains cfg_no_candidates)
  ∧ process_domain net_example cfg_no_candidates "example.com" ["8.8.8.8"]
      empty_world
    = (Ok tt, {| files := ∅; console := [];
                 trace := [Call_process_domain "example.com"] |})
  ∧ files (process_domain net_example cfg_no_candidates "example.com"
             ["8.8.8.8"] empty_world).2
    !! output_file_of cfg_no_candidates "example.com" = None.
Proof.
  split; [reflexivity|]. split; [simpl; lia|]. split.
  - intros ns sub _ Hsub. by apply elem_of_nil in Hsub.
  - split; vm_compute; reflexivity.
Qed.

(** No name resolves: the run leaves an empty output file. *)
Example process_domain_nothing_found :
  (process_domain net_down cfg_example "example.com" ["8.8.8.8"]
     empty_world).2.(files) !! "out/example.com.txt" = Some "".
Proof. vm_compute. reflexivity. Qed.

(** ** The engine *)

Section Engine.
Variables (net : network) (cfg : settings).

(** The ghost trace is faithful: a call to [process_batch] is
    recorded, whatever happens next. *)
Lemma process_batch_trace (domain : string)
    (valid_nameservers batch : list string) (output_file : string)
    (w : world) :
  trace (process_batch net cfg domain valid_nameservers batch
           output_file w).2
  = trace w ++ [Call_process_batch domain batch output_file].
Proof.
  destruct (decide (0 < threads cfg)) as [Hpos|Hneg].
  - destruct (gather net cfg domain (build_tasks valid_nameservers batch) ∅)
      as [U|e] eqn:HU.
    + by rewrite (process_batch_ok net cfg domain valid_nameservers batch
                    output_file w U Hpos HU).
    + by rewrite (process_batch_raise net cfg domain valid_nameservers batch
                    output_file w e Hpos HU).
  - unfold process_batch, bind, record_call, lift, Semaphore,
      ThreadPoolExecutor.
    destruct (threads cfg <? 0); [done|].
    rewrite (proj2 (Z.leb_le (threads cfg) 0)) by lia. done.
Qed.

Lemma run_batches_trace (domain : string) (valid_nameservers : list string)
    (output_file : string) (batches : list (list string)) :
  ∀ w, ∃ rest,
    trace (run_batches net cfg domain valid_nameservers output_file
             batches w).2 = trace w ++ rest.
Proof.
  unfold run_batches. induction batches as [|b bs IH]; intros w.
  - exists []. simpl. by rewrite app_nil_r.
  - cbn [for_each]. unfold bind.
    pose proof (process_batch_trace domain valid_nameservers b
                  output_file w) as Ht.
    destruct (process_batch net cfg domain valid_nameservers b
                output_file w) as [[[]|e] w1]; cbn [snd] in *.
    + destruct (IH w1) as [rest Hrest]. rewrite Hrest, Ht, <- app_assoc.
      by eexists.
    + rewrite Ht. by eexists.
Qed.

(** A call to [process_domain] is recorded. *)
Lemma process_domain_trace (domain : string)
    (valid_nameservers : list string) (w : world) :
  ∃ rest,
    trace (process_domain net cfg domain valid_nameservers w).2
    = trace w ++ Call_process_domain domain :: rest.
Proof.
  unfold process_domain, bind, record_call, lift.
  destruct (subdomain_batches (subdomains cfg) (batch_size cfg))
    as [batches|e]; [|by exists []].
  match goal with
  | |- context [run_batches _ _ _ _ _ batches ?w1] =>
      destruct (run_batches_trace domain valid_nameservers
                  (output_file_of cfg domain) batches w1) as [rest Hrest]
  end.
  rewrite Hrest. cbn [trace].
  rewrite <- app_assoc. by exists rest.
Qed.

(** Resolvers on which the probe fails with a DNS exception leave the
    validated list as it is. *)
Lemma collect_valid_none (completed : list string) :
  ∀ valid_nameservers,
    (∀ ns, ns ∈ completed →
       ∃ e, net ns "google.com" A (timeout cfg) = Fails e
            ∧ isinstance e C_DNSException = true) →
    collect_valid net cfg completed valid_nameservers = Ok valid_nameservers.
Proof.
  induction completed as [|ns rest IH]; intros valid Hall; [done|].
  destruct (Hall ns ltac:(by left)) as (e & He & Hc).
  cbn [collect_valid]. unfold validate_nameserver, resolve. rewrite He.
  cbn [res_bind try_except]. unfold catches. cbn [existsb]. rewrite Hc.
  cbn [orb res_bind]. apply IH. intros ns' Hns'. apply Hall. by right.
Qed.

(** When no candidate resolver answers the probe, the validation phase
    yields the empty list. *)
Lemma validation_phase_none (completion : list string → list string) :
  0 < threads cfg →
  (∀ l, completion l ≡ₚ l) →
  (∀ ns, ns ∈ nameservers cfg →
     ∃ e, net ns "google.com" A (timeout cfg) = Fails e
          ∧ isinstance e C_DNSException = true) →
  validation_phase net cfg completion = Ok [].
Proof.
  intros Hthreads Hperm Hall. unfold validation_phase, ThreadPoolExecutor.
  rewrite (proj2 (Z.leb_gt _ _)) by lia. cbn [res_bind].
  apply collect_valid_none. intros ns Hns. apply Hall.
  by rewrite <- (Hperm (nameservers cfg)).
Qed.

End Engine.

(** C1 - No validated resolver, no output.  When the validation phase
    yields an empty list, [main] prints its two messages and returns: no
    file is created or changed, and neither [process_domain] nor
    [process_batch] is called. *)
Theorem C1_no_valid_resolver_no_output (net : network) (cfg : settings)
    (completion : list string → list string) (w : world) :
  validation_phase net cfg completion = Ok [] →
  (main net cfg completion w).1 = Ok tt
  ∧ files (main net cfg completion w).2 = files w
  ∧ trace (main net cfg completion w).2 = trace w
  ∧ console (main net cfg completion w).2
    = console w ++ [Msg_validating; Msg_no_valid_nameservers].
Proof.
  intros Hvalid. unfold main, bind, print, lift. rewrite Hvalid.
  cbn [fst snd files trace console]. rewrite <- app_assoc. done.
Qed.

Lemma C1_no_valid_resolver_no_output_witness :
  validation_phase net_down cfg_example id = Ok []
  ∧ (main net_down cfg_example id world_old).1 = Ok tt
  ∧ files (main net_down cfg_example id world_old).2 = files world_old
  ∧ trace (main net_down cfg_example id world_old).2 = trace world_old
  ∧ console (main net_down cfg_example id world_old).2
    = console world_old ++ [Msg_validating; Msg_no_valid_nameservers].
Proof.
  assert (Hv : validation_phase net_down cfg_example id = Ok [])
    by reflexivity.
  split; [exact Hv|].
  exact (C1_no_valid_resolver_no_output net_down cfg_example id world_old Hv).
Defined.

(** The end-to-end scenario of the specification: one resolver, three
    candidates in one batch, two of which resolve. *)
Example main_end_to_end :
  let cfg := {| domains := ["example.com"];
                nameservers := ["8.8.8.8"];
                subdomains := ["www"; "mail"; "bogus-xyz-123"];
                timeout := 2;
                output_directory := "out";
                batch_size := 3;
                threads := 4 |} in
  (main net_example cfg id empty_world).1 = Ok tt
  ∧ (main net_example cfg id empty_world).2.(files) !! "out/example.com.txt"
    = Some ("www.example.com" +:+ nl +:+ "mail.example.com" +:+ nl)
  ∧ (main net_example cfg id empty_world).2.(trace)
    = [Call_process_domain "example.com";
       Call_process_batch "example.com" ["www"; "mail"; "bogus-xyz-123"]
         "out/example.com.txt"].
Proof. repeat split; vm_compute; reflexivity. Qed.

(** * Further properties *)

(** ** The resolver validator *)

Lemma validate_nameserver_cases (net : network) (cfg : settings)
    (ns : string) :
  validate_nameserver net cfg ns =
    match net ns "google.com" A (timeout cfg) with
    | Answer _ => Ok (Some ns)
    | Fails e => if isinstance e C_DNSException then Ok None else Raise e
    end.
Proof.
  unfold validate_nameserver, resolve.
  by destruct (net ns "google.com" A (timeout cfg)) as [rr|[]].
Qed.

(** X1 - The validator's contract.  [validate_nameserver] returns its
    argument exactly when the probe is answered, and never another
    string; it returns nothing exactly when the probe fails with a
    [DNSException]; it raises exactly the exceptions of the probe that are
    not a [DNSException]. *)
Theorem X1_validate_nameserver_contract (net : network) (cfg : settings)
    (ns : string) :
  (validate_nameserver net cfg ns = Ok (Some ns) ↔ probe_ok net cfg ns = true)
  ∧ (∀ r, validate_nameserver net cfg ns = Ok (Some r) → r = ns)
  ∧ (validate_nameserver net cfg ns = Ok None
     ↔ ∃ e, net ns "google.com" A (timeout cfg) = Fails e
            ∧ isinstance e C_DNSException = true)
  ∧ (∀ e, validate_nameserver net cfg ns = Raise e
          ↔ net ns "google.com" A (timeout cfg) = Fails e
            ∧ isinstance e C_DNSException = false).
Proof.
  rewrite validate_nameserver_cases. unfold probe_ok.
  destruct (net ns "google.com" A (timeout cfg)) as [rr|e0] eqn:Hq.
  - split; [done|]. split; [by intros r [= <-]|]. split.
    + split; [done|]. by intros (e & He & _).
    + intros e. split; [done|]. by intros [He _].
  - destruct (isinstance e0 C_DNSException) eqn:Hc.
    + split; [done|]. split; [done|]. split.
      * split; [|done]. intros _. by exists e0.
      * intros e. split; [done|]. intros [[= <-] He]. congruence.
    + split; [done|]. split; [done|]. split.
      * split; [done|]. intros (e & [= <-] & He). congruence.
      * intros e. split; [by intros [= <-]|]. by intros [[= <-] _].
Qed.

Section Validation.
Variables (net : network) (cfg : settings).

(** The loop over the completed futures keeps, in order, the resolvers
    whose probe is answered. *)
Lemma collect_valid_filter (completed : list string) :
  ∀ valid_nameservers,
    (∀ ns, ns ∈ completed → returns (validate_nameserver net cfg ns)) →
    collect_valid net cfg completed valid_nameservers
    = Ok (valid_nameservers
          ++ filter (fun ns => probe_ok net cfg ns && truthy ns = true)
               completed).
Proof.
  induction completed as [|ns rest IH]; intros valid Hall.
  - simpl. by rewrite app_nil_r.
  - pose proof (Hall ns ltac:(by left)) as Hns.
    cbn [collect_valid]. rewrite validate_nameserver_cases in *.
    assert (Hrest : ∀ ns', ns' ∈ rest →
                      returns (validate_nameserver net cfg ns'))
      by (intros ns' Hns'; apply Hall; by right).
    destruct (net ns "google.com" A (timeout cfg)) as [rr|e] eqn:Hq.
    + cbn [res_bind]. rewrite IH by done.
      assert (Hp : probe_ok net cfg ns = true) by (unfold probe_ok; by rewrite Hq).
      destruct (truthy ns) eqn:Ht.
      * rewrite filter_cons_True by (by rewrite Hp, Ht).
        by rewrite <- app_assoc.
      * by rewrite filter_cons_False by (by rewrite Hp, Ht).
    + assert (Hp : probe_ok net cfg ns = false) by (unfold probe_ok; by rewrite Hq).
      destruct (isinstance e C_DNSException); [|done].
      cbn [res_bind]. rewrite IH by done.
      by rewrite filter_cons_False by (by rewrite Hp).
Qed.

(** The loop raises as soon as a validator raised. *)
Lemma collect_valid_raises (completed : list string) :
  ∀ valid_nameservers,
    (∃ ns, ns ∈ completed ∧ ¬ returns (validate_nameserver net cfg ns)) →
    ¬ returns (collect_valid net cfg completed valid_nameservers).
Proof.
  induction completed as [|ns rest IH]; intros valid (ns' & Hin & Hnot).
  - by apply elem_of_nil in Hin.
  - cbn [collect_valid].
    destruct (validate_nameserver net cfg ns) as [r|e] eqn:Hv;
      [|simpl; tauto].
    cbn [res_bind]. apply IH. exists ns'. split; [|done].
    apply elem_of_cons in Hin as [->|Hin]; [|done].
    by rewrite Hv in Hnot.
Qed.

End Validation.

(** X2 - Resolver validation is a filter.  When no validator raises, the
    validation phase of [main] yields, in completion order, the candidate
    resolvers whose probe is answered (and that are not the empty string):
    a resolver is validated exactly when it is a candidate whose probe is
    answered, as many times as it is listed. *)
Theorem X2_validation_is_a_filter (net : network) (cfg : settings)
    (completion : list string → list string) :
  0 < threads cfg →
  (∀ l, completion l ≡ₚ l) →
  (∀ ns, ns ∈ nameservers cfg → returns (validate_nameserver net cfg ns)) →
  ∃ valid,
    validation_phase net cfg completion = Ok valid
    ∧ valid = filter (fun ns => probe_ok net cfg ns && truthy ns = true)
                (completion (nameservers cfg))
    ∧ valid ≡ₚ filter (fun ns => probe_ok net cfg ns && truthy ns = true)
                 (nameservers cfg)
    ∧ (∀ ns, ns ∈ valid
             ↔ ns ∈ nameservers cfg ∧ probe_ok net cfg ns = true ∧ ns ≠ "").
Proof.
  intros Hthreads Hperm Hall. eexists.
  split; [|split; [reflexivity|split]].
  - unfold validation_phase, ThreadPoolExecutor.
    rewrite (proj2 (Z.leb_gt _ _)) by lia. cbn [res_bind].
    rewrite collect_valid_filter; [done|].
    intros ns Hns. apply Hall. by rewrite <- (Hperm (nameservers cfg)).
  - by rewrite (Hperm (nameservers cfg)).
  - intros ns. rewrite list_elem_of_filter, (Hperm (nameservers cfg)).
    rewrite andb_true_iff. split.
    + intros [[Hp Ht] Hin]. split; [done|]. split; [done|]. by intros ->.
    + intros (Hin & Hp & Hne). split; [|done]. split; [done|].
      by destruct ns.
Qed.

Lemma X2_validation_is_a_filter_witness :
  0 < threads cfg_example
  ∧ (∀ l : list string, id l ≡ₚ l)
  ∧ (∀ ns, ns ∈ nameservers cfg_example →
       returns (validate_nameserver net_example cfg_example ns))
  ∧ ∃ valid,
      validation_phase net_example cfg_example id = Ok valid
      ∧ valid = filter (fun ns => probe_ok net_example cfg_example ns
                                  && truthy ns = true)
                  (id (nameservers cfg_example))
      ∧ valid ≡ₚ filter (fun ns => probe_ok net_example cfg_example ns
                                   && truthy ns = true)
                   (nameservers cfg_example)
      ∧ (∀ ns, ns ∈ valid
               ↔ ns ∈ nameservers cfg_example
                 ∧ probe_ok net_example cfg_example ns = true ∧ ns ≠ "").
Proof.
  assert (Ht : 0 < threads cfg_example) by reflexivity.
  assert (Hp : ∀ l : list string, id l ≡ₚ l) by (intros l; reflexivity).
  assert (Hr : ∀ ns, ns ∈ nameservers cfg_example →
                 returns (validate_nameserver net_example cfg_example ns)).
  { intros ns Hns. simpl in Hns. elem_cases Hns; vm_compute; exact I. }
  split; [exact Ht|]. split; [exact Hp|]. split; [exact Hr|].
  exact (X2_validation_is_a_filter net_example cfg_example id Ht Hp Hr).
Defined.

(** ** The loaded lists *)

Lemma load_nameservers_lines_sound (lines : list string) :
  ∀ l, load_nameservers_lines lines = Ok l →
       Forall (fun ns => is_valid_ip ns = Ok true
                         ∧ ∃ line, line ∈ lines ∧ ns = strip line) l.
Proof.
  induction lines as [|line rest IH]; intros l; simpl.
  - intros [= <-]. constructor.
  - assert (Hrest : ∀ l', Forall (fun ns => is_valid_ip ns = Ok true
                               ∧ ∃ line', line' ∈ rest ∧ ns = strip line') l' →
                          Forall (fun ns => is_valid_ip ns = Ok true
                               ∧ ∃ line', line' ∈ line :: rest
                                          ∧ ns = strip line') l').
    { intros l' Hl'. eapply Forall_impl; [exact Hl'|]. cbn beta.
      intros ns (Hv & line' & Hin & ->).
      split; [done|]. exists line'. split; [by right|done]. }
    destruct (truthy (strip line)); [|by intros ?%IH%Hrest].
    destruct (is_valid_ip (strip line)) as [valid|e] eqn:Hv; [|done].
    cbn [res_bind].
    destruct (load_nameservers_lines rest) as [tl|e]; [|done].
    cbn [res_bind]. intros [= <-]. specialize (IH tl eq_refl).
    destruct valid; [|by apply Hrest]. constructor; [|by apply Hrest].
    split; [done|]. exists line. split; [by left|done].
Qed.

(** X3 - Only dotted quads reach the engine.  Every resolver
    [load_nameservers] returns is the stripped form of a line of the file,
    is a dotted quad (four dot-separated decimal numerals, each of at most
    [int_max_str_digits] digits and of value at most 255), is not empty
    and carries no white space at either end. *)
Theorem X3_loaded_resolvers_are_dotted_quads (text : string)
    (l : list string) :
  load_nameservers text = Ok l →
  Forall (fun ns => dotted_quad ns ∧ truthy ns = true ∧ trimmed ns
                    ∧ ∃ line, line ∈ readlines text ∧ ns = strip line) l.
Proof.
  intros Hl. apply load_nameservers_lines_sound in Hl.
  eapply Forall_impl; [exact Hl|]. cbn beta.
  intros ns (Hv & line & Hin & ->).
  apply is_valid_ip_true in Hv as Hq.
  split; [done|]. split.
  - destruct Hq as (p1 & p2 & p3 & p4 & Heq & (_ & n & Hn & _) & _).
    destruct (decimal_digits p1 n Hn) as (_ & Hne & _).
    rewrite Heq. by destruct p1.
  - split; [|by exists line].
    destruct (strip_spec line) as (pre & post & _ & _ & _ & Hs & He).
    by split.
Qed.

Lemma X3_loaded_resolvers_are_dotted_quads_witness :
  load_nameservers (" 8.8.8.8 " +:+ nl +:+ "foo" +:+ nl +:+ "9.9.9.9")
  = Ok ["8.8.8.8"; "9.9.9.9"]
  ∧ Forall (fun ns => dotted_quad ns ∧ truthy ns = true ∧ trimmed ns
                      ∧ ∃ line,
                          line ∈ readlines (" 8.8.8.8 " +:+ nl +:+ "foo"
                                            +:+ nl +:+ "9.9.9.9")
                          ∧ ns = strip line)
      ["8.8.8.8"; "9.9.9.9"].
Proof.
  assert (H : load_nameservers
                (" 8.8.8.8 " +:+ nl +:+ "foo" +:+ nl +:+ "9.9.9.9")
              = Ok ["8.8.8.8"; "9.9.9.9"]) by reflexivity.
  split; [exact H|].
  exact (X3_loaded_resolvers_are_dotted_quads _ _ H).
Defined.

(** ** The list of domains *)

Lemma strip_padded (piece name : string) :
  padded piece name → trimmed name → strip piece = name.
Proof.
  intros (pre & post & -> & Hpre & Hpost) [Hs He].
  by apply (strip_unique _ pre name post).
Qed.

Lemma join_cons_cons (sep : ascii) (p q : string) (ps : list string) :
  join sep (p :: q :: ps) = p +:+ String sep (join sep (q :: ps)).
Proof. reflexivity. Qed.

(** X4 - Parsing the list of domains.  A value made of comma-separated
    pieces, each a name with white space around it, is parsed into the
    list of the names: the white space around the commas is dropped and
    nothing else is, an empty piece giving an empty domain. *)
Theorem X4_parse_domains (pieces names : list string) :
  pieces ≠ [] →
  Forall (sep_free comma) pieces →
  Forall2 padded pieces names →
  Forall trimmed names →
  parse_domains (join comma pieces) = names.
Proof.
  intros Hne Hfree Hpad Htrim. unfold parse_domains.
  rewrite split_join by done. clear Hne Hfree.
  induction Hpad as [|piece name pieces names Hp Hps IH]; [done|].
  apply Forall_cons in Htrim as [Hn Hns].
  cbn [map]. rewrite (strip_padded piece name Hp Hn). f_equal. by apply IH.
Qed.

Lemma X4_parse_domains_witness :
  ["example.com"; " example.org "; ""] ≠ []
  ∧ Forall (sep_free comma) ["example.com"; " example.org "; ""]
  ∧ Forall2 padded ["example.com"; " example.org "; ""]
      ["example.com"; "example.org"; ""]
  ∧ Forall trimmed ["example.com"; "example.org"; ""]
  ∧ parse_domains "example.com, example.org ,"
    = ["example.com"; "example.org"; ""].
Proof.
  assert (H1 : ["example.com"; " example.org "; ""] ≠ []) by done.
  assert (H2 : Forall (sep_free comma) ["example.com"; " example.org "; ""])
    by (repeat constructor).
  assert (H3 : Forall2 padded ["example.com"; " example.org "; ""]
                 ["example.com"; "example.org"; ""]).
  { repeat constructor.
    - by exists "", "".
    - by exists " ", " ".
    - by exists "", "". }
  assert (H4 : Forall trimmed ["example.com"; "example.org"; ""])
    by (repeat constructor).
  split; [exact H1|]. split; [exact H2|]. split; [exact H3|].
  split; [exact H4|].
  exact (X4_parse_domains _ _ H1 H2 H3 H4).
Defined.

(** An empty setting gives one empty domain, not an empty list. *)
Example parse_domains_empty : parse_domains "" = [""].
Proof. reflexivity. Qed.

(** ** The output path *)

Section OutputPath.

Lemma slength_app (s t : string) :
  String.length (s +:+ t) = (String.length s + String.length t)%nat.
Proof.
  induction s as [|c s IH]; [done|]. rewrite sapp_cons. simpl. by rewrite IH.
Qed.

Lemma sapp_inj_r (s s' t : string) : s +:+ t = s' +:+ t → s = s'.
Proof.
  revert s'. induction s as [|c s IH]; intros [|c' s'] Heq; [done|..].
  - apply (f_equal String.length) in Heq.
    rewrite sapp_nil_l, sapp_cons in Heq. simpl in Heq.
    rewrite slength_app in Heq. lia.
  - apply (f_equal String.length) in Heq.
    rewrite sapp_nil_l, sapp_cons in Heq. simpl in Heq.
    rewrite slength_app in Heq. lia.
  - rewrite !sapp_cons in Heq. injection Heq as -> Heq. f_equal. by apply IH.
Qed.

Lemma startswith_slash_txt (domain : string) :
  startswith slash (domain +:+ ".txt") = startswith slash domain.
Proof. by destruct domain. Qed.

(** For a domain that does not start with a slash the output path is the
    domain and [".txt"] after a prefix that only the output directory
    determines. *)
Lemma output_file_of_relative (cfg : settings) (domain : string) :
  startswith slash domain = false →
  output_file_of cfg domain
  = (if negb (truthy (output_directory cfg))
        || endswith slash (output_directory cfg)
     then output_directory cfg
     else output_directory cfg +:+ "/") +:+ domain +:+ ".txt".
Proof.
  intros Hrel. unfold output_file_of, path_join.
  rewrite startswith_slash_txt, Hrel.
  destruct (negb (truthy (output_directory cfg))
            || endswith slash (output_directory cfg)); [done|].
  by rewrite sapp_assoc.
Qed.

End OutputPath.

(** X5 - The output path determines the domain.  Two different domains
    that do not start with a slash are given two different output paths:
    the two path strings differ. *)
Theorem X5_output_paths_distinct (cfg : settings) (d1 d2 : string) :
  startswith slash d1 = false →
  startswith slash d2 = false →
  d1 ≠ d2 →
  output_file_of cfg d1 ≠ output_file_of cfg d2.
Proof.
  intros H1 H2 Hne. rewrite !output_file_of_relative by done.
  intros Heq. apply Hne. apply (inj (String.app _)) in Heq.
  by apply sapp_inj_r in Heq.
Qed.

Lemma X5_output_paths_distinct_witness :
  startswith slash "example.com" = false
  ∧ startswith slash "example.org" = false
  ∧ "example.com" ≠ "example.org"
  ∧ output_file_of cfg_example "example.com"
    ≠ output_file_of cfg_example "example.org".
Proof.
  assert (H1 : startswith slash "example.com" = false) by reflexivity.
  assert (H2 : startswith slash "example.org" = false) by reflexivity.
  assert (H3 : "example.com" ≠ "example.org") by discriminate.
  split; [exact H1|]. split; [exact H2|]. split; [exact H3|].
  exact (X5_output_paths_distinct cfg_example "example.com" "example.org"
           H1 H2 H3).
Defined.

(** Two paths that differ as strings may name one file: the domains [x]
    and [./x] are given the paths [out/x.txt] and [out/./x.txt]. *)
Example output_file_of_dot :
  output_file_of cfg_example "x" = "out/x.txt"
  ∧ output_file_of cfg_example "./x" = "out/./x.txt".
Proof. split; reflexivity. Qed.

(** A domain that starts with a slash leaves the output directory, and
    can then share its file with another domain. *)
Example output_file_of_absolute :
  output_file_of cfg_example "/tmp/x" = "/tmp/x.txt"
  ∧ output_file_of {| domains := []; nameservers := []; subdomains := [];
                      timeout := 2; output_directory := "/tmp";
                      batch_size := 100; threads := 4 |} "x" = "/tmp/x.txt".
Proof. split; reflexivity. Qed.

(** ** A batch as a unit *)

Section BatchUnit.
Variables (net : network) (cfg : settings) (domain : string).

Lemma process_batch_bad_threads (valid_nameservers batch : list string)
    (output_file : string) (w : world) :
  threads cfg ≤ 0 →
  process_batch net cfg domain valid_nameservers batch output_file w
  = (Raise ValueError,
     {| files := files w; console := console w;
        trace := trace w ++ [Call_process_batch domain batch output_file] |}).
Proof.
  intros Hneg.
  unfold process_batch, bind, record_call, lift, Semaphore, ThreadPoolExecutor.
  destruct (threads cfg <? 0); [done|].
  by rewrite (proj2 (Z.leb_le (threads cfg) 0)) by lia.
Qed.

(** The gather depends on the set of its tasks only. *)
Lemma gather_same_tasks (tasks tasks' : list (string * string))
    (U0 : gset string) :
  (∀ t, t ∈ tasks ↔ t ∈ tasks') →
  (returns (gather net cfg domain tasks U0)
   ↔ returns (gather net cfg domain tasks' U0))
  ∧ (∀ U, gather net cfg domain tasks U0 = Ok U →
          gather net cfg domain tasks' U0 = Ok U).
Proof.
  intros Hsame.
  assert (Hret : ∀ ts ts' : list (string * string),
            (∀ t, t ∈ ts ↔ t ∈ ts') →
            returns (gather net cfg domain ts U0) →
            returns (gather net cfg domain ts' U0)).
  { intros ts ts' Hs Hr. apply gather_returns. intros t Ht.
    destruct (gather net cfg domain ts U0) as [U|e] eqn:HU; [|done].
    apply (gather_ok_returns net cfg domain ts U0 U HU). by apply Hs. }
  split.
  - split; apply Hret; [done|]. intros t. by rewrite Hsame.
  - intros U HU.
    assert (Hr : returns (gather net cfg domain tasks' U0)).
    { apply (Hret tasks tasks' Hsame). by rewrite HU. }
    destruct (gather net cfg domain tasks' U0) as [U'|e] eqn:HU'; [|done].
    f_equal. apply set_eq. intros h.
    rewrite (gather_spec _ _ _ _ _ _ HU h), (gather_spec _ _ _ _ _ _ HU' h).
    split; (intros [?|(t & Ht & Hh)]; [by left|right]; exists t;
            split; [by apply Hsame|done]).
Qed.

Lemma build_tasks_same (vns vns' batch batch' : list string) :
  (∀ ns, ns ∈ vns ↔ ns ∈ vns') →
  (∀ sub, sub ∈ batch ↔ sub ∈ batch') →
  ∀ t, t ∈ build_tasks vns batch ↔ t ∈ build_tasks vns' batch'.
Proof.
  intros Hns Hsub [ns sub]. rewrite !elem_of_build_tasks.
  by rewrite Hns, Hsub.
Qed.

(** A batch reaches the same world whatever the order of the resolvers
    and however many times each is listed. *)
Lemma process_batch_same_resolvers (vns vns' batch : list string)
    (output_file : string) (w : world) :
  (∀ ns, ns ∈ vns ↔ ns ∈ vns') →
  (process_batch net cfg domain vns batch output_file w).2
  = (process_batch net cfg domain vns' batch output_file w).2
  ∧ (returns (process_batch net cfg domain vns batch output_file w).1
     ↔ returns (process_batch net cfg domain vns' batch output_file w).1).
Proof.
  intros Hsame.
  destruct (decide (0 < threads cfg)) as [Hpos|Hneg];
    [|by rewrite !process_batch_bad_threads by lia].
  pose proof (build_tasks_same vns vns' batch batch Hsame
                (fun _ => reflexivity _)) as Htasks.
  destruct (gather_same_tasks _ _ ∅ Htasks) as [Hret Hok].
  destruct (gather net cfg domain (build_tasks vns batch) ∅) as [U|e] eqn:HU.
  - rewrite (process_batch_ok net cfg domain vns batch output_file w U Hpos HU).
    by rewrite (process_batch_ok net cfg domain vns' batch output_file w U
                  Hpos (Hok U eq_refl)).
  - destruct (gather net cfg domain (build_tasks vns' batch) ∅)
      as [U'|e'] eqn:HU'; [exfalso; by apply Hret|].
    rewrite (process_batch_raise net cfg domain vns batch output_file w e
               Hpos HU).
    by rewrite (process_batch_raise net cfg domain vns' batch output_file w e'
                  Hpos HU').
Qed.

(** A batch that raises leaves the files as they were. *)
Lemma process_batch_raise_files (valid_nameservers batch : list string)
    (output_file : string) (w : world) (e : exc) :
  (process_batch net cfg domain valid_nameservers batch output_file w).1
  = Raise e →
  files (process_batch net cfg domain valid_nameservers batch
           output_file w).2 = files w.
Proof.
  destruct (decide (0 < threads cfg)) as [Hpos|Hneg];
    [|by rewrite process_batch_bad_threads by lia].
  destruct (gather net cfg domain (build_tasks valid_nameservers batch) ∅)
    as [U|e'] eqn:HU.
  - by rewrite (process_batch_ok net cfg domain valid_nameservers batch
                  output_file w U Hpos HU).
  - by rewrite (process_batch_raise net cfg domain valid_nameservers batch
                  output_file w e' Hpos HU).
Qed.

End BatchUnit.

(** X6 - A batch is all or nothing.  When a task of the batch lets an
    exception escape, or the thread count is not positive, [process_batch]
    raises and the output file is neither created nor changed: the hits of
    the tasks that had completed are lost.  With a positive thread count
    the exception raised is one that a task of the batch raised. *)
Theorem X6_batch_all_or_nothing (net : network) (cfg : settings)
    (domain : string) (valid_nameservers batch : list string) (w : world) :
  threads cfg ≤ 0 ∨ ¬ tasks_return net cfg domain valid_nameservers batch →
  (∃ e,
     (process_batch net cfg domain valid_nameservers batch
        (output_file_of cfg domain) w).1 = Raise e
     ∧ (0 < threads cfg →
        ∃ ns sub, ns ∈ valid_nameservers ∧ sub ∈ batch
                  ∧ check_subdomain net cfg ns domain sub = Raise e))
  ∧ files (process_batch net cfg domain valid_nameservers batch
             (output_file_of cfg domain) w).2
    !! output_file_of cfg domain
    = files w !! output_file_of cfg domain.
Proof.
  intros Hcause.
  destruct (decide (0 < threads cfg)) as [Hpos|Hneg].
  - destruct Hcause as [Hle|Hnot]; [lia|].
    destruct (gather_raises net cfg domain valid_nameservers batch Hnot)
      as [e He].
    rewrite (process_batch_raise net cfg domain valid_nameservers batch
               (output_file_of cfg domain) w e Hpos He).
    cbn [fst snd files]. split; [|done].
    exists e. split; [done|]. intros _.
    apply gather_raise in He as ([ns sub] & Ht & Hc).
    apply elem_of_build_tasks in Ht as [Hns Hsub]. by exists ns, sub.
  - rewrite process_batch_bad_threads by lia. cbn [fst snd files].
    split; [|done]. exists ValueError. split; [done|]. intros ?. lia.
Qed.

Lemma X6_batch_all_or_nothing_witness :
  (threads cfg_crash ≤ 0
   ∨ ¬ tasks_return net_crash cfg_crash "example.com" ["8.8.8.8"]
         ["www"; "crash"])
  ∧ (∃ e,
       (process_batch net_crash cfg_crash "example.com" ["8.8.8.8"]
          ["www"; "crash"] (output_file_of cfg_crash "example.com")
          world_old).1 = Raise e
       ∧ (0 < threads cfg_crash →
          ∃ ns sub, ns ∈ ["8.8.8.8"] ∧ sub ∈ ["www"; "crash"]
                    ∧ check_subdomain net_crash cfg_crash ns "example.com" sub
                      = Raise e))
  ∧ files (process_batch net_crash cfg_crash "example.com" ["8.8.8.8"]
             ["www"; "crash"] (output_file_of cfg_crash "example.com")
             world_old).2
    !! output_file_of cfg_crash "example.com"
    = files world_old !! output_file_of cfg_crash "example.com".
Proof.
  assert (H : threads cfg_crash ≤ 0
              ∨ ¬ tasks_return net_crash cfg_crash "example.com" ["8.8.8.8"]
                    ["www"; "crash"]).
  { right. intros Hret.
    assert (Hns : "8.8.8.8" ∈ ["8.8.8.8"]) by (by left).
    assert (Hsub : "crash" ∈ ["www"; "crash"]) by (right; by left).
    exact (Hret "8.8.8.8" "crash" Hns Hsub). }
  split; [exact H|].
  exact (X6_batch_all_or_nothing net_crash cfg_crash "example.com" ["8.8.8.8"]
           ["www"; "crash"] world_old H).
Defined.

(** The batch of the witness raises what its task raised, and the line of
    the earlier run is all the file holds. *)
Example process_batch_crash :
  process_batch net_crash cfg_crash "example.com" ["8.8.8.8"]
    ["www"; "crash"] "out/example.com.txt" world_old
  = (Raise OtherError,
     {| files := files world_old; console := [];
        trace := [Call_process_batch "example.com" ["www"; "crash"]
                    "out/example.com.txt"] |}).
Proof. vm_compute. reflexivity. Qed.

(** X7 - The tasks of a batch commute.  What a batch confirms depends on
    the set of resolvers and the set of candidates only: neither the order
    of the resolvers or of the candidates nor a repeated resolver or
    candidate changes the set of hostnames of the batch, whether the batch
    raises, or, up to their order, the lines appended to the output
    file. *)
Theorem X7_batch_depends_on_sets (net : network) (cfg : settings)
    (domain : string) (vns vns' batch batch' : list string) (w : world) :
  (∀ ns, ns ∈ vns ↔ ns ∈ vns') →
  (∀ sub, sub ∈ batch ↔ sub ∈ batch') →
  batch_hits net cfg domain vns batch = batch_hits net cfg domain vns' batch'
  ∧ (returns (process_batch net cfg domain vns batch
                (output_file_of cfg domain) w).1
     ↔ returns (process_batch net cfg domain vns' batch'
                  (output_file_of cfg domain) w).1)
  ∧ ∃ hosts hosts' : list string,
      hosts ≡ₚ hosts'
      ∧ content_of (files (process_batch net cfg domain vns batch
                             (output_file_of cfg domain) w).2)
          (output_file_of cfg domain)
        = content_of (files w) (output_file_of cfg domain) +:+ render hosts
      ∧ content_of (files (process_batch net cfg domain vns' batch'
                             (output_file_of cfg domain) w).2)
          (output_file_of cfg domain)
        = content_of (files w) (output_file_of cfg domain) +:+ render hosts'.
Proof.
  intros Hns Hsub.
  pose proof (build_tasks_same vns vns' batch batch' Hns Hsub) as Htasks.
  destruct (gather_same_tasks net cfg domain _ _ ∅ Htasks) as [Hret Hok].
  unfold batch_hits.
  destruct (gather net cfg domain (build_tasks vns batch) ∅) as [U|e] eqn:HU.
  - rewrite (Hok U eq_refl). split; [done|].
    destruct (decide (0 < threads cfg)) as [Hpos|Hneg].
    + rewrite (process_batch_ok net cfg domain vns batch _ w U Hpos HU).
      rewrite (process_batch_ok net cfg domain vns' batch' _ w U Hpos
                 (Hok U eq_refl)).
      cbn [fst snd files]. split; [done|].
      exists (elements U), (elements U). split; [done|].
      by rewrite !content_of_insert.
    + rewrite !process_batch_bad_threads by lia. cbn [fst snd files].
      split; [done|]. exists [], []. by rewrite sapp_nil_r.
  - destruct (gather net cfg domain (build_tasks vns' batch') ∅)
      as [U'|e'] eqn:HU'; [exfalso; by apply Hret|].
    split; [done|].
    destruct (decide (0 < threads cfg)) as [Hpos|Hneg].
    + rewrite (process_batch_raise net cfg domain vns batch _ w e Hpos HU).
      rewrite (process_batch_raise net cfg domain vns' batch' _ w e' Hpos
                 HU').
      cbn [fst snd files]. split; [done|].
      exists [], []. by rewrite sapp_nil_r.
    + rewrite !process_batch_bad_threads by lia. cbn [fst snd files].
      split; [done|]. exists [], []. by rewrite sapp_nil_r.
Qed.

Lemma X7_batch_depends_on_sets_witness :
  (∀ ns, ns ∈ ["8.8.8.8"; "1.1.1.1"] ↔ ns ∈ ["1.1.1.1"; "8.8.8.8"; "1.1.1.1"])
  ∧ (∀ sub, sub ∈ ["www"; "mail"] ↔ sub ∈ ["mail"; "www"; "www"])
  ∧ batch_hits net_example cfg_example "example.com"
      ["8.8.8.8"; "1.1.1.1"] ["www"; "mail"]
    = batch_hits net_example cfg_example "example.com"
        ["1.1.1.1"; "8.8.8.8"; "1.1.1.1"] ["mail"; "www"; "www"]
  ∧ (returns (process_batch net_example cfg_example "example.com"
                ["8.8.8.8"; "1.1.1.1"] ["www"; "mail"]
                (output_file_of cfg_example "example.com") world_old).1
     ↔ returns (process_batch net_example cfg_example "example.com"
                  ["1.1.1.1"; "8.8.8.8"; "1.1.1.1"] ["mail"; "www"; "www"]
                  (output_file_of cfg_example "example.com") world_old).1)
  ∧ ∃ hosts hosts' : list string,
      hosts ≡ₚ hosts'
      ∧ content_of (files (process_batch net_example cfg_example
                             "example.com" ["8.8.8.8"; "1.1.1.1"]
                             ["www"; "mail"]
                             (output_file_of cfg_example "example.com")
                             world_old).2)
          (output_file_of cfg_example "example.com")
        = content_of (files world_old)
            (output_file_of cfg_example "example.com") +:+ render hosts
      ∧ content_of (files (process_batch net_example cfg_example
                             "example.com" ["1.1.1.1"; "8.8.8.8"; "1.1.1.1"]
                             ["mail"; "www"; "www"]
                             (output_file_of cfg_example "example.com")
                             world_old).2)
          (output_file_of cfg_example "example.com")
        = content_of (files world_old)
            (output_file_of cfg_example "example.com") +:+ render hosts'.
Proof.
  assert (H1 : ∀ ns, ns ∈ ["8.8.8.8"; "1.1.1.1"]
                     ↔ ns ∈ ["1.1.1.1"; "8.8.8.8"; "1.1.1.1"]).
  { intros ns. rewrite !elem_of_cons, !elem_of_nil. tauto. }
  assert (H2 : ∀ sub, sub ∈ ["www"; "mail"] ↔ sub ∈ ["mail"; "www"; "www"]).
  { intros sub. rewrite !elem_of_cons, !elem_of_nil. tauto. }
  split; [exact H1|]. split; [exact H2|].
  exact (X7_batch_depends_on_sets net_example cfg_example "example.com"
           ["8.8.8.8"; "1.1.1.1"] ["1.1.1.1"; "8.8.8.8"; "1.1.1.1"]
           ["www"; "mail"] ["mail"; "www"; "www"] world_old H1 H2).
Defined.

(** ** The order in which the validations complete *)

Section CompletionOrder.
Variables (net : network) (cfg : settings).

Lemma run_batches_same_resolvers (domain : string) (vns vns' : list string)
    (output_file : string) (batches : list (list string)) :
  (∀ ns, ns ∈ vns ↔ ns ∈ vns') →
  ∀ w,
    (run_batches net cfg domain vns output_file batches w).2
    = (run_batches net cfg domain vns' output_file batches w).2
    ∧ (returns (run_batches net cfg domain vns output_file batches w).1
       ↔ returns (run_batches net cfg domain vns' output_file batches w).1).
Proof.
  intros Hsame. unfold run_batches.
  induction batches as [|b bs IH]; intros w; [done|].
  cbn [for_each]. unfold bind.
  destruct (process_batch_same_resolvers net cfg domain vns vns' b
              output_file w Hsame) as [Hw Hr].
  destruct (process_batch net cfg domain vns b output_file w)
    as [[[]|e] w1];
    destruct (process_batch net cfg domain vns' b output_file w)
      as [[[]|e'] w2]; cbn [fst snd] in *; subst w2.
  - apply IH.
  - exfalso. by apply Hr.
  - exfalso. by apply Hr.
  - done.
Qed.

Lemma process_domain_same_resolvers (domain : string)
    (vns vns' : list string) (w : world) :
  (∀ ns, ns ∈ vns ↔ ns ∈ vns') →
  (process_domain net cfg domain vns w).2
  = (process_domain net cfg domain vns' w).2
  ∧ (returns (process_domain net cfg domain vns w).1
     ↔ returns (process_domain net cfg domain vns' w).1).
Proof.
  intros Hsame. unfold process_domain, bind, record_call, lift.
  destruct (subdomain_batches (subdomains cfg) (batch_size cfg)); [|done].
  by apply run_batches_same_resolvers.
Qed.

Lemma for_each_cons {T : Type} (x : T) (xs : list T) (body : T → M unit)
    (w : world) :
  for_each (x :: xs) body w
  = match body x w with
    | (Ok _, w') => for_each xs body w'
    | (Raise e, w') => (Raise e, w')
    end.
Proof. reflexivity. Qed.

Lemma print_bind {U : Type} (m : message) (k : M U) (w : world) :
  (print m ;; k) w
  = k {| files := files w; console := console w ++ [m]; trace := trace w |}.
Proof. reflexivity. Qed.

Lemma domains_loop_same_resolvers (vns vns' : list string)
    (doms : list string) :
  (∀ ns, ns ∈ vns ↔ ns ∈ vns') →
  ∀ w,
    (for_each doms
       (fun domain => print (Msg_domain_start domain) ;;
                      process_domain net cfg domain vns) w).2
    = (for_each doms
         (fun domain => print (Msg_domain_start domain) ;;
                        process_domain net cfg domain vns') w).2
    ∧ (returns (for_each doms
                  (fun domain => print (Msg_domain_start domain) ;;
                                 process_domain net cfg domain vns) w).1
       ↔ returns (for_each doms
                    (fun domain => print (Msg_domain_start domain) ;;
                                   process_domain net cfg domain vns') w).1).
Proof.
  intros Hsame. induction doms as [|d ds IH]; intros w; [done|].
  rewrite !for_each_cons, !print_bind.
  match goal with
  | |- context [process_domain net cfg d vns ?w0] =>
      destruct (process_domain_same_resolvers d vns vns' w0 Hsame) as [Hw Hr];
      destruct (process_domain net cfg d vns w0) as [[[]|e] w1];
      destruct (process_domain net cfg d vns' w0) as [[[]|e'] w2]
  end; cbn [fst snd] in *; subst w2.
  - apply IH.
  - exfalso. by apply Hr.
  - exfalso. by apply Hr.
  - done.
Qed.

Lemma collect_valid_ok_returns (completed : list string)
    (acc valid : list string) :
  collect_valid net cfg completed acc = Ok valid →
  ∀ ns, ns ∈ completed → returns (validate_nameserver net cfg ns).
Proof.
  intros Hok ns Hns.
  destruct (validate_nameserver net cfg ns) as [r|e] eqn:Hv; [done|].
  exfalso. apply (collect_valid_raises net cfg completed acc).
  - exists ns. split; [done|]. rewrite Hv. simpl. tauto.
  - by rewrite Hok.
Qed.

(** Two completion orders validate the same resolvers, or both make the
    validation phase raise. *)
Lemma validation_phase_same (c1 c2 : list string → list string) :
  (∀ l, c1 l ≡ₚ l) → (∀ l, c2 l ≡ₚ l) →
  match validation_phase net cfg c1, validation_phase net cfg c2 with
  | Ok v1, Ok v2 => ∀ ns, ns ∈ v1 ↔ ns ∈ v2
  | Raise _, Raise _ => True
  | _, _ => False
  end.
Proof.
  intros H1 H2. unfold validation_phase, ThreadPoolExecutor.
  destruct (threads cfg <=? 0); [done|]. cbn [res_bind].
  assert (Hmove : ∀ ca cb : list string → list string,
            (∀ l, ca l ≡ₚ l) → (∀ l, cb l ≡ₚ l) →
            ∀ v, collect_valid net cfg (ca (nameservers cfg)) [] = Ok v →
                 v = filter (fun ns => probe_ok net cfg ns && truthy ns = true)
                       (ca (nameservers cfg))
                 ∧ collect_valid net cfg (cb (nameservers cfg)) []
                   = Ok (filter (fun ns => probe_ok net cfg ns
                                           && truthy ns = true)
                           (cb (nameservers cfg)))).
  { intros ca cb Ha Hb v Hv.
    pose proof (collect_valid_ok_returns _ _ _ Hv) as Hret.
    rewrite collect_valid_filter in Hv by done. injection Hv as <-.
    split; [done|]. rewrite collect_valid_filter; [done|].
    intros ns Hns. apply Hret. by rewrite Ha, <- (Hb (nameservers cfg)). }
  destruct (collect_valid net cfg (c1 (nameservers cfg)) []) as [v1|e1] eqn:E1.
  - destruct (Hmove c1 c2 H1 H2 v1 E1) as [-> ->].
    intros ns. by rewrite !list_elem_of_filter, H1, H2.
  - destruct (collect_valid net cfg (c2 (nameservers cfg)) []) as [v2|e2] eqn:E2;
      [|done].
    destruct (Hmove c2 c1 H2 H1 v2 E2) as [_ Hc]. congruence.
Qed.

End CompletionOrder.

(** In the model two completion orders lead [main] to the same world. *)
Lemma main_same_completion (net : network) (cfg : settings)
    (c1 c2 : list string → list string) (w : world) :
  (∀ l, c1 l ≡ₚ l) →
  (∀ l, c2 l ≡ₚ l) →
  (main net cfg c1 w).2 = (main net cfg c2 w).2
  ∧ (returns (main net cfg c1 w).1 ↔ returns (main net cfg c2 w).1).
Proof.
  intros H1 H2. pose proof (validation_phase_same net cfg c1 c2 H1 H2) as Hv.
  unfold main, bind, lift. unfold print at 1 3.
  destruct (validation_phase net cfg c1) as [v1|e1];
    destruct (validation_phase net cfg c2) as [v2|e2]; try done.
  destruct v1 as [|x1 v1]; destruct v2 as [|x2 v2].
  - done.
  - exfalso. apply (elem_of_nil x2), Hv. by left.
  - exfalso. apply (elem_of_nil x1), Hv. by left.
  - by apply domains_loop_same_resolvers.
Qed.

(** ** What a domain run writes *)

Section DomainOutput.
Variables (net : network) (cfg : settings) (domain : string).
Variable valid_nameservers : list string.


Lemma elem_of_domain_written (batches : list (list string)) (h : string) :
  h ∈ domain_written net cfg domain valid_nameservers batches
  ↔ ∃ b, b ∈ batches
         ∧ h ∈ batch_hits net cfg domain valid_nameservers b.
Proof.
  unfold domain_written. rewrite list_elem_of_In, in_flat_map. split.
  - intros (b & Hb & Hh). exists b.
    by rewrite list_elem_of_In, <- elem_of_elements, list_elem_of_In.
  - intros (b & Hb & Hh). exists b.
    by rewrite <- !list_elem_of_In, elem_of_elements.
Qed.

(** A hostname of the set of a batch comes from a candidate of the
    batch. *)
Lemma batch_hits_candidates (batch : list string) (h : string) :
  h ∈ batch_hits net cfg domain valid_nameservers batch →
  ∃ sub, sub ∈ batch ∧ h = full_subdomain_of sub domain.
Proof.
  unfold batch_hits.
  destruct (gather net cfg domain (build_tasks valid_nameservers batch) ∅)
    as [U|e] eqn:HU; [|by intros ?%not_elem_of_empty].
  intros Hh. apply (gather_spec _ _ _ _ _ _ HU) in Hh
    as [Hh|([ns sub] & Ht & Hc)]; [by apply not_elem_of_empty in Hh|].
  apply elem_of_build_tasks in Ht as [_ Hsub].
  apply check_subdomain_Some in Hc as [-> _]. by exists sub.
Qed.

(** The set of a batch has at most one hostname per candidate. *)
Lemma batch_hits_bound (batch : list string) :
  (length (elements (batch_hits net cfg domain valid_nameservers batch))
   ≤ length batch)%nat.
Proof.
  rewrite <- (length_fmap (fun sub => full_subdomain_of sub domain) batch).
  apply submseteq_length, NoDup_submseteq; [apply NoDup_elements|].
  intros h Hh. apply elem_of_elements, batch_hits_candidates in Hh
    as (sub & Hsub & ->).
  by apply (list_elem_of_fmap_2 (fun s => full_subdomain_of s domain)).
Qed.

Lemma domain_written_bound (batches : list (list string)) :
  (length (domain_written net cfg domain valid_nameservers batches)
   ≤ length (concat batches))%nat.
Proof.
  unfold domain_written. induction batches as [|b bs IH]; [done|].
  cbn [flat_map concat]. rewrite !length_app.
  pose proof (batch_hits_bound b). lia.
Qed.

Lemma domain_written_candidates (batches : list (list string)) :
  Forall (fun h => ∃ sub, sub ∈ concat batches
                          ∧ h = full_subdomain_of sub domain)
    (domain_written net cfg domain valid_nameservers batches).
Proof.
  apply Forall_forall. intros h (b & Hb & Hh)%elem_of_domain_written.
  apply batch_hits_candidates in Hh as (sub & Hsub & ->).
  exists sub. split; [|done].
  apply list_elem_of_In, in_concat. exists b.
  by rewrite <- !list_elem_of_In.
Qed.

Lemma tasks_return_dec (batch : list string) :
  tasks_return net cfg domain valid_nameservers batch
  ∨ ¬ tasks_return net cfg domain valid_nameservers batch.
Proof.
  destruct (gather net cfg domain (build_tasks valid_nameservers batch) ∅)
    as [U|e] eqn:HU.
  - left. intros ns sub Hns Hsub.
    apply (gather_ok_returns net cfg domain _ _ _ HU (ns, sub)).
    by apply elem_of_build_tasks.
  - right. intros Hret.
    by rewrite (tasks_return_gather net cfg domain valid_nameservers batch
                  Hret) in HU.
Qed.

(** The batches that run before the first one that raises. *)
Lemma leading_batches (batches : list (list string)) :
  ∃ k, (k ≤ length batches)%nat
       ∧ (∀ b, b ∈ take k batches →
            tasks_return net cfg domain valid_nameservers b)
       ∧ (k = length batches
          ∨ ∃ next, batches !! k = Some next
                    ∧ ¬ tasks_return net cfg domain valid_nameservers next).
Proof.
  induction batches as [|b bs (k & Hk & Hret & Hend)].
  - exists 0%nat. split; [done|]. split; [|by left].
    intros b Hb. by apply elem_of_nil in Hb.
  - destruct (tasks_return_dec b) as [Hb|Hb].
    + exists (S k). split; [simpl; lia|]. split.
      * intros b' [->|Hb']%elem_of_cons; [done|by apply Hret].
      * destruct Hend as [->|(next & Hnext & Hnot)]; [by left|right].
        by exists next.
    + exists 0%nat. split; [simpl; lia|]. split.
      * intros b' Hb'. by apply elem_of_nil in Hb'.
      * right. by exists b.
Qed.

Variable output_file : string.

(** Whatever happens, the loop over the batches leaves the files as the
    batches that ran before the first raise left them. *)
Lemma run_batches_files (batches : list (list string)) (w : world) :
  ∃ k, (k ≤ length batches)%nat
       ∧ files (run_batches net cfg domain valid_nameservers output_file
                  batches w).2
         = after_batches output_file (take k batches)
             (domain_written net cfg domain valid_nameservers
                (take k batches)) (files w)
       ∧ (returns (run_batches net cfg domain valid_nameservers output_file
                     batches w).1 → k = length batches).
Proof.
  destruct (decide (0 < threads cfg)) as [Hpos|Hneg].
  - destruct (leading_batches batches)
      as (k & Hk & Hret & [->|(next & Hnext & Hnot)]).
    + exists (length batches). split; [done|].
      rewrite firstn_all in *. by rewrite run_batches_ok.
    + exists k. split; [done|].
      destruct (gather_raises net cfg domain valid_nameservers next Hnot)
        as [e He].
      pose proof (run_batches_raise net cfg domain valid_nameservers
                    output_file (take k batches) (drop (S k) batches) next e
                    Hpos Hret He w) as Hrun.
      rewrite (take_drop_middle batches k next Hnext) in Hrun.
      by rewrite Hrun.
  - exists 0%nat. split; [lia|]. destruct batches as [|b bs]; [done|].
    unfold run_batches. rewrite for_each_cons.
    by rewrite process_batch_bad_threads by lia.
Qed.

End DomainOutput.



(** ** What a run can do to the files *)

Section Files.

Lemma after_batches_is_Some (output_file : string)
    (batches : list (list string)) (written : list string)
    (fs : gmap string string) (path : string) :
  is_Some (fs !! path) →
  is_Some (after_batches output_file batches written fs !! path).
Proof.
  intros Hsome. destruct batches as [|b bs]; [done|]. cbn [after_batches].
  destruct (decide (output_file = path)) as [->|Hne].
  - rewrite lookup_insert_eq. by eexists.
  - by rewrite lookup_insert_ne.
Qed.

Lemma length_concat_take {T : Type} (k : nat) (l : list (list T)) :
  (length (concat (take k l)) ≤ length (concat l))%nat.
Proof.
  rewrite <- (take_drop k l) at 2. rewrite concat_app, length_app. lia.
Qed.

Lemma elem_of_concat_take {T : Type} (k : nat) (l : list (list T)) (x : T) :
  x ∈ concat (take k l) → x ∈ concat l.
Proof.
  rewrite <- (take_drop k l) at 2. rewrite concat_app, elem_of_app. by left.
Qed.

Lemma appended_refl (P : string → Prop) (outs : list string)
    (fs : gmap string string) :
  appended P outs fs fs.
Proof.
  split; [done|]. intros path. exists []. split; [constructor|].
  split; [by rewrite sapp_nil_r|done].
Qed.

Lemma appended_trans (P : string → Prop) (outs : list string)
    (fs1 fs2 fs3 : gmap string string) :
  appended P outs fs1 fs2 → appended P outs fs2 fs3 →
  appended P outs fs1 fs3.
Proof.
  intros [Hf12 Ha12] [Hf23 Ha23]. split.
  - intros path Hpath. by rewrite Hf23, Hf12.
  - intros path.
    destruct (Ha12 path) as (h1 & HP1 & Hc1 & Hs1).
    destruct (Ha23 path) as (h2 & HP2 & Hc2 & Hs2).
    exists (h1 ++ h2). split; [by apply Forall_app|]. split; [|by auto].
    by rewrite Hc2, Hc1, render_app, sapp_assoc.
Qed.

End Files.

Section DomainFiles.
Variables (net : network) (cfg : settings) (domain : string).
Variable valid_nameservers : list string.

(** Whatever happens, a domain run appends to its output file at most
    one line per candidate, each the name of a candidate, and leaves the
    other files alone. *)
Lemma process_domain_files (w : world) :
  ∃ hosts : list string,
    Forall (fun h => ∃ sub, sub ∈ subdomains cfg
                            ∧ h = full_subdomain_of sub domain) hosts
    ∧ (length hosts ≤ length (subdomains cfg))%nat
    ∧ content_of (files (process_domain net cfg domain valid_nameservers w).2)
        (output_file_of cfg domain)
      = content_of (files w) (output_file_of cfg domain) +:+ render hosts
    ∧ (∀ path, path ≠ output_file_of cfg domain →
         files (process_domain net cfg domain valid_nameservers w).2 !! path
         = files w !! path)
    ∧ (∀ path, is_Some (files w !! path) →
         is_Some (files (process_domain net cfg domain valid_nameservers w).2
                  !! path)).
Proof.
  destruct (subdomain_batches (subdomains cfg) (batch_size cfg))
    as [batches|e] eqn:Hb.
  - assert (Hcat : concat batches = subdomains cfg).
    { destruct (batch_size cfg) as [|k] eqn:HB; [done|].
      destruct (subdomain_batches_concat (subdomains cfg) (S k) ltac:(lia))
        as (batches' & Hb' & Hcat).
      congruence. }
    rewrite (process_domain_run net cfg domain valid_nameservers w batches Hb).
    destruct (run_batches_files net cfg domain valid_nameservers
                (output_file_of cfg domain) batches (entered domain w))
      as (k & Hk & -> & _).
    cbn [files entered].
    exists (domain_written net cfg domain valid_nameservers (take k batches)).
    split; [|split; [|split; [|split]]].
    + eapply Forall_impl; [apply domain_written_candidates|]. cbn beta.
      intros h (sub & Hsub & ->). exists sub. split; [|done].
      rewrite <- Hcat. by eapply elem_of_concat_take.
    + rewrite <- Hcat.
      pose proof (domain_written_bound net cfg domain valid_nameservers
                    (take k batches)).
      pose proof (length_concat_take k batches). lia.
    + apply content_after_batches. by intros ->.
    + intros path Hpath. by apply other_after_batches.
    + intros path. apply after_batches_is_Some.
  - exists []. unfold process_domain, bind, record_call, lift. rewrite Hb.
    cbn [fst snd files]. split; [constructor|]. split; [simpl; lia|].
    split; [by rewrite sapp_nil_r|done].
Qed.

Lemma process_domain_appended (w : world) :
  domain ∈ domains cfg →
  appended (candidate_host cfg) (map (output_file_of cfg) (domains cfg))
    (files w) (files (process_domain net cfg domain valid_nameservers w).2).
Proof.
  intros Hdom.
  destruct (process_domain_files w) as (hosts & HP & _ & Hc & Hf & Hs).
  assert (Hout : output_file_of cfg domain
                 ∈ map (output_file_of cfg) (domains cfg)).
  { apply list_elem_of_In, in_map. by apply list_elem_of_In. }
  split.
  - intros path Hpath. apply Hf. by intros ->.
  - intros path. destruct (decide (path = output_file_of cfg domain))
      as [->|Hne].
    + exists hosts. split; [|by auto].
      eapply Forall_impl; [exact HP|]. cbn beta.
      intros h (sub & Hsub & ->). by exists domain, sub.
    + exists []. split; [constructor|]. split; [|by auto].
      unfold content_of. by rewrite (Hf path Hne), sapp_nil_r.
Qed.

(** With an empty word list a domain run changes no file. *)
Lemma process_domain_no_candidates (w : world) :
  subdomains cfg = [] →
  files (process_domain net cfg domain valid_nameservers w).2 = files w.
Proof.
  intros Hempty.
  unfold process_domain, bind, record_call, lift, subdomain_batches, range.
  rewrite Hempty. destruct (batch_size cfg) as [|k]; [done|].
  cbn [length res_bind]. rewrite range_up_step.
  by rewrite decide_False by lia.
Qed.

End DomainFiles.

Section MainFiles.
Variables (net : network) (cfg : settings).
Variable valid_nameservers : list string.

Lemma domains_loop_appended (doms : list string) :
  (∀ d, d ∈ doms → d ∈ domains cfg) →
  ∀ w,
    appended (candidate_host cfg) (map (output_file_of cfg) (domains cfg))
      (files w)
      (files (for_each doms
                (fun domain =>
                   print (Msg_domain_start domain) ;;
                   process_domain net cfg domain valid_nameservers) w).2).
Proof.
  induction doms as [|d ds IH]; intros Hsub w; [apply appended_refl|].
  rewrite for_each_cons, print_bind.
  match goal with
  | |- context [process_domain net cfg d valid_nameservers ?w0] =>
      pose proof (process_domain_appended net cfg d valid_nameservers w0
                    (Hsub d ltac:(by left))) as Hd;
      destruct (process_domain net cfg d valid_nameservers w0)
        as [[[]|e] w1]
  end; cbn [fst snd files] in *; [|done].
  eapply appended_trans; [exact Hd|].
  apply IH. intros d' Hd'. apply Hsub. by right.
Qed.

Lemma domains_loop_no_candidates (doms : list string) :
  subdomains cfg = [] →
  ∀ w,
    files (for_each doms
             (fun domain =>
                print (Msg_domain_start domain) ;;
                process_domain net cfg domain valid_nameservers) w).2
    = files w.
Proof.
  intros Hempty. induction doms as [|d ds IH]; intros w; [done|].
  rewrite for_each_cons, print_bind.
  match goal with
  | |- context [process_domain net cfg d valid_nameservers ?w0] =>
      pose proof (process_domain_no_candidates net cfg d valid_nameservers w0
                    Hempty) as Hd;
      destruct (process_domain net cfg d valid_nameservers w0)
        as [[[]|e] w1]
  end; cbn [fst snd files] in *; [|done].
  by rewrite IH.
Qed.

End MainFiles.

(** X10 - At most one line per candidate.  Whether it returns or raises,
    a domain run appends to its output file a number of lines that does not
    exceed the number of candidates of the word list, each line being
    [<candidate>.<domain>] for a candidate of the word list. *)
Theorem X10_at_most_one_line_per_candidate (net : network) (cfg : settings)
    (domain : string) (valid_nameservers : list string) (w : world) :
  ∃ hosts : list string,
    content_of (files (process_domain net cfg domain valid_nameservers w).2)
      (output_file_of cfg domain)
    = content_of (files w) (output_file_of cfg domain) +:+ render hosts
    ∧ (length hosts ≤ length (subdomains cfg))%nat
    ∧ Forall (fun h => ∃ sub, sub ∈ subdomains cfg
                              ∧ h = full_subdomain_of sub domain) hosts.
Proof.
  destruct (process_domain_files net cfg domain valid_nameservers w)
    as (hosts & HP & Hlen & Hc & _).
  exists hosts. by split; [|split].
Qed.

(** Whether it returns or raises, [main] only appends names of
    candidates to the files. *)
Lemma main_appended (net : network) (cfg : settings)
    (completion : list string → list string) (w : world) :
  appended (candidate_host cfg) (map (output_file_of cfg) (domains cfg))
    (files w) (files (main net cfg completion w).2).
Proof.
  unfold main. rewrite print_bind. unfold bind, lift.
  destruct (validation_phase net cfg completion) as [[|ns valid]|e];
    try apply appended_refl.
  match goal with
  | |- context [for_each (domains cfg) ?body ?w0] =>
      apply (domains_loop_appended net cfg (ns :: valid) (domains cfg)
               (fun d Hd => Hd) w0)
  end.
Qed.

(** With an empty word list [main] changes no file. *)
Lemma main_no_candidates (net : network) (cfg : settings)
    (completion : list string → list string) (w : world) :
  subdomains cfg = [] →
  files (main net cfg completion w).2 = files w.
Proof.
  intros Hempty. unfold main. rewrite print_bind. unfold bind, lift.
  destruct (validation_phase net cfg completion) as [[|ns valid]|e];
    try done.
  match goal with
  | |- context [for_each (domains cfg) ?body ?w0] =>
      apply (domains_loop_no_candidates net cfg (ns :: valid) (domains cfg)
               Hempty w0)
  end.
Qed.

(** X11 - [main] only appends hostnames to the output files.  Whether it
    returns or raises, [main] does not remove the output file of a
    configured domain and changes it only by appending lines, each of them
    [<candidate>.<domain>] for a configured domain and a candidate of the
    word list. *)
Theorem X11_main_only_appends (net : network) (cfg : settings)
    (completion : list string → list string) (w : world) (domain : string) :
  domain ∈ domains cfg →
  ∃ hosts : list string,
    Forall (candidate_host cfg) hosts
    ∧ content_of (files (main net cfg completion w).2)
        (output_file_of cfg domain)
      = content_of (files w) (output_file_of cfg domain) +:+ render hosts
    ∧ (is_Some (files w !! output_file_of cfg domain) →
       is_Some (files (main net cfg completion w).2
                !! output_file_of cfg domain)).
Proof.
  intros _.
  destruct (main_appended net cfg completion w) as [_ Happ].
  apply Happ.
Qed.

Lemma X11_main_only_appends_witness :
  "example.com" ∈ domains cfg_example
  ∧ ∃ hosts : list string,
      Forall (candidate_host cfg_example) hosts
      ∧ content_of (files (main net_example cfg_example id world_old).2)
          (output_file_of cfg_example "example.com")
        = content_of (files world_old)
            (output_file_of cfg_example "example.com") +:+ render hosts
      ∧ (is_Some (files world_old
                  !! output_file_of cfg_example "example.com") →
         is_Some (files (main net_example cfg_example id world_old).2
                  !! output_file_of cfg_example "example.com")).
Proof.
  assert (H : "example.com" ∈ domains cfg_example) by (by left).
  split; [exact H|].
  exact (X11_main_only_appends net_example cfg_example id world_old
           "example.com" H).
Defined.

(** X12 - An empty word list creates no output file.  With no candidate,
    [main] neither creates nor changes the output file of any configured
    domain, whatever the resolvers answer: a domain is processed with no
    batch. *)
Theorem X12_empty_word_list (net : network) (cfg : settings)
    (completion : list string → list string) (w : world) (domain : string) :
  subdomains cfg = [] →
  domain ∈ domains cfg →
  files (main net cfg completion w).2 !! output_file_of cfg domain
  = files w !! output_file_of cfg domain.
Proof.
  intros Hempty _. by rewrite main_no_candidates.
Qed.

Lemma X12_empty_word_list_witness :
  subdomains cfg_no_candidates = []
  ∧ "example.com" ∈ domains cfg_no_candidates
  ∧ files (main net_example cfg_no_candidates id empty_world).2
    !! output_file_of cfg_no_candidates "example.com"
    = files empty_world !! output_file_of cfg_no_candidates "example.com".
Proof.
  assert (H1 : subdomains cfg_no_candidates = []) by reflexivity.
  assert (H2 : "example.com" ∈ domains cfg_no_candidates) by (by left).
  split; [exact H1|]. split; [exact H2|].
  exact (X12_empty_word_list net_example cfg_no_candidates id empty_world
           "example.com" H1 H2).
Defined.

(** With an empty word list the domain is announced and processed, and
    no file exists afterwards. *)
Example main_no_candidates_run :
  main net_example cfg_no_candidates id empty_world
  = (Ok tt,
     {| files := ∅;
        console := [Msg_validating; Msg_domain_start "example.com"];
        trace := [Call_process_domain "example.com"] |}).
Proof. vm_compute. reflexivity. Qed.

(** X8 - The completion order of the validations is immaterial.  Whatever
    the order in which the validation futures complete, [main] returns or
    raises alike, prints the same messages, makes the same calls, and
    appends to the output file of every configured domain the same lines up
    to their order. *)
Theorem X8_main_completion_order (net : network) (cfg : settings)
    (c1 c2 : list string → list string) (w : world) :
  (∀ l, c1 l ≡ₚ l) →
  (∀ l, c2 l ≡ₚ l) →
  (returns (main net cfg c1 w).1 ↔ returns (main net cfg c2 w).1)
  ∧ console (main net cfg c1 w).2 = console (main net cfg c2 w).2
  ∧ trace (main net cfg c1 w).2 = trace (main net cfg c2 w).2
  ∧ ∀ domain, domain ∈ domains cfg →
      ∃ hosts hosts' : list string,
        hosts ≡ₚ hosts'
        ∧ content_of (files (main net cfg c1 w).2) (output_file_of cfg domain)
          = content_of (files w) (output_file_of cfg domain) +:+ render hosts
        ∧ content_of (files (main net cfg c2 w).2) (output_file_of cfg domain)
          = content_of (files w) (output_file_of cfg domain)
            +:+ render hosts'.
Proof.
  intros H1 H2.
  destruct (main_same_completion net cfg c1 c2 w H1 H2) as [Hw Hr].
  split; [exact Hr|]. rewrite <- Hw. split; [done|]. split; [done|].
  intros domain _.
  destruct (main_appended net cfg c1 w) as [_ Happ].
  destruct (Happ (output_file_of cfg domain)) as (hosts & _ & Hc & _).
  by exists hosts, hosts.
Qed.

Lemma X8_main_completion_order_witness :
  (∀ l : list string, id l ≡ₚ l)
  ∧ (∀ l : list string, reverse l ≡ₚ l)
  ∧ (returns (main net_example cfg_example id world_old).1
     ↔ returns (main net_example cfg_example reverse world_old).1)
  ∧ console (main net_example cfg_example id world_old).2
    = console (main net_example cfg_example reverse world_old).2
  ∧ trace (main net_example cfg_example id world_old).2
    = trace (main net_example cfg_example reverse world_old).2
  ∧ ∀ domain, domain ∈ domains cfg_example →
      ∃ hosts hosts' : list string,
        hosts ≡ₚ hosts'
        ∧ content_of (files (main net_example cfg_example id world_old).2)
            (output_file_of cfg_example domain)
          = content_of (files world_old) (output_file_of cfg_example domain)
            +:+ render hosts
        ∧ content_of
            (files (main net_example cfg_example reverse world_old).2)
            (output_file_of cfg_example domain)
          = content_of (files world_old) (output_file_of cfg_example domain)
            +:+ render hosts'.
Proof.
  assert (H1 : ∀ l : list string, id l ≡ₚ l) by (intros l; reflexivity).
  assert (H2 : ∀ l : list string, reverse l ≡ₚ l)
    by (intros l; apply reverse_Permutation).
  split; [exact H1|]. split; [exact H2|].
  exact (X8_main_completion_order net_example cfg_example id reverse
           world_old H1 H2).
Defined.

(** ** A complete run *)

Section CompleteRun.
Variables (net : network) (cfg : settings).
Variable valid_nameservers : list string.
Variable batches : list (list string).




Hypothesis Hthreads : 0 < threads cfg.
Hypothesis Hbatches :
  subdomain_batches (subdomains cfg) (batch_size cfg) = Ok batches.



End CompleteRun.








(** The domain listed twice has its two hits written twice, after the
    line the file held; the other domain has none. *)
Example main_domain_listed_twice :
  (main net_example cfg_twice id world_old).2.(files) !! "out/example.com.txt"
  = Some ("old.example.com" +:+ nl
          +:+ "www.example.com" +:+ nl +:+ "mail.example.com" +:+ nl
          +:+ "www.example.com" +:+ nl +:+ "mail.example.com" +:+ nl)
  ∧ (main net_example cfg_twice id world_old).2.(files)
    !! "out/example.org.txt" = Some "".
Proof. split; vm_compute; reflexivity. Qed.

(** ** When the validator raises *)

Section ValidatorErrors.

Lemma occurs_cons (c a : ascii) (s : string) :
  occurs c (String a s) ↔ c = a ∨ occurs c s.
Proof. unfold occurs. simpl. split; intros [?|?]; auto. Qed.

(** A string of digits that [int_digits] refuses holds a digit that is
    not a decimal digit. *)
Lemma int_digits_raise (s : string) : ∀ (acc : Z) (e : exc),
  string_forallb isdigit_char s = true →
  int_digits acc s = Raise e →
  e = ValueError ∧ ∃ c, occurs c s ∧ non_decimal_digit c.
Proof.
  induction s as [|a s IH]; intros acc e; simpl; [done|].
  intros [Ha Hs]%andb_true_iff.
  destruct (isdecimal_char a) eqn:Hd.
  - intros Hr. destruct (IH _ _ Hs Hr) as (-> & c & Hc & Hnd).
    split; [done|]. exists c. split; [|done]. apply occurs_cons. by right.
  - intros [= <-]. split; [done|]. exists a. split.
    + apply occurs_cons. by left.
    + by split.
Qed.

Lemma int_digits_non_decimal (s : string) (c : ascii) :
  occurs c s → isdecimal_char c = false →
  ∀ acc, int_digits acc s = Raise ValueError.
Proof.
  induction s as [|a s IH]; intros Hc Hnd acc; [by destruct Hc|].
  simpl. apply occurs_cons in Hc as [->|Hc].
  - by rewrite Hnd.
  - destruct (isdecimal_char a); [by apply IH|done].
Qed.

(** On a part that passes [isdigit], [int] raises exactly when the part
    is unparsable. *)
Lemma int_raise (part : string) (e : exc) :
  isdigit part = true →
  int part = Raise e ↔ e = ValueError ∧ unparsable part.
Proof.
  intros Hd. assert (Hd' := Hd). unfold isdigit in Hd'.
  apply andb_true_iff in Hd' as [Hne Hall].
  rewrite int_nonempty by done. unfold unparsable.
  destruct (Nat.ltb_spec int_max_str_digits (String.length part)) as [Hl|Hl].
  - split.
    + intros [= <-]. split; [done|]. split; [done|]. by right.
    + by intros [-> _].
  - split.
    + intros Hr.
      destruct (int_digits_raise part 0 e Hall Hr) as (-> & c & Hc & Hnd).
      split; [done|]. split; [done|]. left. by exists c.
    + intros (-> & _ & [(c & Hc & _ & Hnd)|Hlong]); [|lia].
      by apply (int_digits_non_decimal part c).
Qed.

(** The validator goes past a part that is an octet. *)
Lemma octet_accepted (p : string) (rest : list string) :
  octet p → all_octets (p :: rest) = all_octets rest.
Proof.
  intros (Hlen & n & Hn & Hrange).
  destruct (decimal_digits p n Hn) as (Hd & Hne & _).
  simpl. unfold isdigit.
  rewrite Hne, (string_forallb_impl _ _ _ isdecimal_isdigit Hd). simpl.
  rewrite (proj2 (int_ok p n) (conj Hn Hlen)). simpl.
  by replace ((0 <=? n) && (n <=? 255)) with true
    by (symmetry; apply andb_true_iff; split; lia).
Qed.

Lemma all_octets_raise (parts : list string) (e : exc) :
  all_octets parts = Raise e
  ↔ e = ValueError
    ∧ ∃ pre part post,
        parts = pre ++ part :: post ∧ Forall octet pre ∧ unparsable part.
Proof.
  split.
  - revert e. induction parts as [|part rest IH]; intros e; simpl; [done|].
    destruct (isdigit part) eqn:Hd; [|done].
    destruct (int part) as [n|e'] eqn:Hint; simpl.
    + destruct ((0 <=? n) && (n <=? 255)) eqn:Hrange; [|done].
      intros (-> & pre & p & post & -> & Hpre & Hp)%IH. split; [done|].
      exists (part :: pre), p, post. split; [done|]. split; [|done].
      apply Forall_cons_2; [|done].
      apply int_ok in Hint as [Hn Hlen]. split; [done|].
      exists n. split; [done|].
      apply andb_true_iff in Hrange as [H1 H2]. lia.
    + intros [= ->]. apply (int_raise part e Hd) in Hint as [-> Hp].
      split; [done|]. by exists [], part, rest.
  - intros (-> & pre & part & post & -> & Hpre & Hp).
    induction Hpre as [|p pre Hp' Hpre IH].
    + simpl. destruct Hp as [Hd Hwhy]. rewrite Hd.
      by rewrite (proj2 (int_raise part ValueError Hd)
                    (conj eq_refl (conj Hd Hwhy))).
    + cbn [app]. by rewrite octet_accepted.
Qed.

(** The validator raises exactly when it stumbles, and then raises
    [ValueError]. *)
Lemma is_valid_ip_raise (ip : string) (e : exc) :
  is_valid_ip ip = Raise e ↔ e = ValueError ∧ stumbles ip.
Proof.
  unfold is_valid_ip, stumbles. cbn zeta.
  destruct (Nat.eqb_spec (length (split dot ip)) 4) as [Hlen|Hlen].
  - rewrite all_octets_raise. split.
    + intros [-> H]. split; [done|]. by split.
    + intros [-> [_ H]]. by split.
  - split; [done|]. by intros [_ [? _]].
Qed.

Lemma load_nameservers_lines_raise_iff (lines : list string) (e : exc) :
  load_nameservers_lines lines = Raise e
  ↔ e = ValueError ∧ ∃ line, line ∈ lines ∧ stumbles (strip line).
Proof.
  split.
  - intros (line & Hline & Hv)%load_nameservers_lines_raise.
    apply is_valid_ip_raise in Hv as [-> Hst]. split; [done|].
    by exists line.
  - intros (-> & line & Hin & Hst).
    assert (Hv : is_valid_ip (strip line) = Raise ValueError)
      by (by apply is_valid_ip_raise).
    clear Hst. induction lines as [|l rest IH]; [by apply elem_of_nil in Hin|].
    simpl. destruct (decide (l = line)) as [->|Hne].
    + destruct (truthy (strip line)) eqn:Ht; [by rewrite Hv|].
      destruct (strip line); [by vm_compute in Hv|done].
    + apply elem_of_cons in Hin as [->|Hin]; [done|]. specialize (IH Hin).
      destruct (truthy (strip l)); [|done].
      destruct (is_valid_ip (strip l)) as [valid|e'] eqn:Hl; simpl.
      * by rewrite IH.
      * by apply is_valid_ip_raise in Hl as [-> _].
Qed.

End ValidatorErrors.

(** X15 - When the validator raises.  The only exception [is_valid_ip]
    raises is [ValueError], and it raises it exactly when the string has
    four dot-separated parts and, after parts that parse as integers in
    [0, 255], comes a part that passes [isdigit] and that [int] refuses: a
    part with a digit that is not a decimal digit, or with more than
    [int_max_str_digits] digits.  On a string with no such part the
    validator returns [True] or [False]. *)
Theorem X15_validator_errors (ip : string) :
  (∀ e, is_valid_ip ip = Raise e ↔ e = ValueError ∧ stumbles ip)
  ∧ ((∀ part, part ∈ split dot ip → ¬ unparsable part) →
     ∃ b, is_valid_ip ip = Ok b).
Proof.
  split; [intros e; apply is_valid_ip_raise|].
  intros Hnone. destruct (is_valid_ip ip) as [b|e] eqn:Hv; [by exists b|].
  apply is_valid_ip_raise in Hv
    as (_ & _ & pre & part & post & Heq & _ & Hp).
  destruct (Hnone part); [|done].
  rewrite Heq. apply elem_of_app. right. by left.
Qed.

(** X16 - When loading the resolver list fails.  Once the file is read,
    the only exception [load_nameservers] raises is [ValueError], and it
    raises it exactly when the validator raises on the stripped form of
    some line; a file none of whose stripped lines has a part that passes
    [isdigit] and that [int] refuses loads, whatever its lines. *)
Theorem X16_load_nameservers_errors (text : string) :
  (∀ e, load_nameservers text = Raise e
        ↔ e = ValueError
          ∧ ∃ line, line ∈ readlines text ∧ stumbles (strip line))
  ∧ ((∀ line part, line ∈ readlines text → part ∈ split dot (strip line) →
        ¬ unparsable part) →
     ∃ l, load_nameservers text = Ok l).
Proof.
  split; [intros e; apply load_nameservers_lines_raise_iff|].
  intros Hnone. destruct (load_nameservers text) as [l|e] eqn:Hl;
    [by exists l|].
  apply load_nameservers_lines_raise_iff in Hl
    as (_ & line & Hline & _ & pre & part & post & Heq & _ & Hp).
  destruct (Hnone line part Hline); [|done].
  rewrite Heq. apply elem_of_app. right. by left.
Qed.

(** A line with an overlong numeral aborts the load, as a superscript
    digit does. *)
Example load_nameservers_overlong :
  load_nameservers ("8.8.8.8" +:+ nl +:+ str_mul "0" 4301 +:+ ".0.0.0" +:+ nl)
  = Raise ValueError.
Proof. vm_compute. reflexivity. Qed.
